(** * dockrun: run a container, relay signals, report its exit code

    A shallow embedding of [dockrun.go].  The program talks to the outside
    world only by running the [docker] command line, by receiving host
    signals and by printing; the embedding keeps every such interaction as
    an event of a trace, and takes the answers of the outside world from a
    [World] record.  [os.Exit] stops the run with a status. *)

From Stdlib Require Import ZArith List String Ascii Bool Lia.
Import ListNotations.

Local Open Scope string_scope.
Local Open Scope list_scope.

(** ** The parts of Go's library the program calls *)

(** The line feed, written ["\n"] in the Go source. *)
Definition nl : string := String "010"%char "".

Module strings.

(** [strings.Contains(s, substr)]. *)
Fixpoint Contains (s substr : string) : bool :=
  match s with
  | "" => String.prefix substr ""
  | String _ s' => String.prefix substr s || Contains s' substr
  end.

Fixpoint inCutset (c : ascii) (cutset : string) : bool :=
  match cutset with
  | "" => false
  | String d cutset' => Ascii.eqb c d || inCutset c cutset'
  end.

Fixpoint TrimLeft (s cutset : string) : string :=
  match s with
  | "" => ""
  | String c s' => if inCutset c cutset then TrimLeft s' cutset else s
  end.

Fixpoint TrimRight (s cutset : string) : string :=
  match s with
  | "" => ""
  | String c s' =>
      match TrimRight s' cutset with
      | "" => if inCutset c cutset then "" else String c ""
      | r => String c r
      end
  end.

(** [strings.Trim(s, cutset)]: every leading and every trailing character
    of [s] that occurs in [cutset] is removed.  Go works on code points;
    for the one-byte cut set ["\n"] the program uses, that is the same as
    working on bytes. *)
Definition Trim (s cutset : string) : string :=
  TrimRight (TrimLeft s cutset) cutset.

End strings.

Module strconv.

Definition digit (c : ascii) : option Z :=
  let n := Z.of_nat (nat_of_ascii c) in
  if ((48 <=? n) && (n <=? 57))%Z then Some (n - 48)%Z else None.

Fixpoint digits (acc : Z) (s : string) : option Z :=
  match s with
  | "" => Some acc
  | String c s' =>
      match digit c with
      | Some d => digits (10 * acc + d)%Z s'
      | None => None
      end
  end.

(** The range of Go's [int] (64 bits). *)
Definition minInt : Z := (- 2 ^ 63)%Z.
Definition maxInt : Z := (2 ^ 63 - 1)%Z.

(** [strconv.Atoi(s)]: an optional sign, then one or more decimal digits,
    the value within [int].  [None] stands for a non-nil error (the
    program looks at nothing else of a failed conversion). *)
Definition Atoi (s : string) : option Z :=
  match s with
  | "" => None
  | String c rest =>
      let '(neg, body) :=
        if Ascii.eqb c "-" then (true, rest)
        else if Ascii.eqb c "+" then (false, rest)
        else (false, s) in
      match body with
      | "" => None
      | _ =>
          match digits 0 body with
          | None => None
          | Some n =>
              let v := if neg then (- n)%Z else n in
              if ((minInt <=? v) && (v <=? maxInt))%Z then Some v else None
          end
      end
  end.

End strconv.

Module syscall.

(** [syscall.WaitStatus] on Linux: the status word of [wait4]. *)
Definition WaitStatus := Z.

Definition Exited (w : WaitStatus) : bool := (Z.land w 127 =? 0)%Z.

Definition ExitStatus (w : WaitStatus) : Z :=
  if Exited w then Z.land (Z.shiftr w 8) 255 else (-1)%Z.

(** [syscall.Signal] is an integer; [os.Interrupt] and [os.Kill] are
    [SIGINT] and [SIGKILL]. *)
Definition Signal := Z.
Definition SIGINT : Signal := 2%Z.
Definition SIGKILL : Signal := 9%Z.

End syscall.

Module os.
Definition Signal := syscall.Signal.
Definition Interrupt : Signal := syscall.SIGINT.
Definition Kill : Signal := syscall.SIGKILL.
End os.

(** Go's [error] values, as far as the program tells them apart: an
    [*exec.ExitError] carries the wait status of the finished process; any
    other error (the command could not be started, its output could not be
    read, [fmt.Errorf]) carries only its text. *)
Inductive error : Type :=
| ExitError (sys : syscall.WaitStatus)
| errorString (msg : string).

Definition isErr (err : option error) : bool :=
  match err with Some _ => true | None => false end.

Module fmt.

(** What [Printf] is given after the format. *)
Inductive Operand : Type :=
| OString (s : string)
| OInt (n : Z)
| OError (err : option error)
| OSignal (sig : os.Signal).

(** A byte that [Printf] takes as the verb when it follows ['%']
    directly: an ASCII byte that is no flag, no digit and none of
    ['.'], ['['], ['*']. *)
Definition isVerb (c : ascii) : bool :=
  let n := nat_of_ascii c in
  Nat.ltb n 128
  && negb (strings.inCutset c "#0+- .[*")
  && negb (Nat.leb 48 n && Nat.leb n 57).

(** The text [Printf(format)] writes when it is given no operand: plain
    text is copied, ["%%"] gives one ['%'], a verb with nothing to print
    gives ["%!v(MISSING)"] (for the verb [v]), and a ['%'] that ends the
    format gives ["%!(NOVERB)"].  Directives with flags, a width, a
    precision or an argument index are outside this model ([None]). *)
Fixpoint Sprintf0 (format : string) : option string :=
  match format with
  | "" => Some ""
  | String c rest =>
      if Ascii.eqb c "%" then
        match rest with
        | "" => Some "%!(NOVERB)"
        | String v rest' =>
            if Ascii.eqb v "%" then option_map (String "%") (Sprintf0 rest')
            else if isVerb v then
              option_map (append ("%!" ++ String v "(MISSING)")) (Sprintf0 rest')
            else None
        end
      else option_map (String c) (Sprintf0 rest)
  end.

End fmt.


(** ** Runs: traces, halting, the outside world *)

(** What a run does that the outside world can see, in order. *)
Inductive Event : Type :=
| Run (argv : list string)      (* a command run to its end: [CombinedOutput] *)
| Spawn (argv : list string)    (* a command started in a goroutine *)
| Println (text : string)
| Printf (format : string) (operands : list fmt.Operand).

Definition Trace := list Event.

(** How a run stops: [os.Exit], or blocked for ever in the [select] of
    [waitForResult] with no channel ever ready again. *)
Inductive Halt : Type :=
| Exit (code : Z)
| Blocked.

(** The exit status of the process after [os.Exit(code)], as its parent
    reads it: the system keeps the low 8 bits of [code]. *)
Definition processStatus (code : Z) : Z := Z.land code 255.

(** A computation either yields a value or halts the program; in both
    cases it extends the trace. *)
Definition M (A : Type) : Type := Trace -> (A + Halt) * Trace.

Definition ret {A} (a : A) : M A := fun t => (inl a, t).

Definition bind {A B} (m : M A) (k : A -> M B) : M B :=
  fun t =>
    match m t with
    | (inl a, t') => k a t'
    | (inr h, t') => (inr h, t')
    end.

Notation "x <- m ;; k" := (bind m (fun x => k))
  (at level 100, m at next level, right associativity).
Notation "' p <- m ;; k" := (bind m (fun x => let p := x in k))
  (at level 100, p pattern, m at next level, right associativity).
Notation "m ;; k" := (bind m (fun _ => k))
  (at level 100, right associativity).

Definition emit {A} (e : Event) (a : A) : M A := fun t => (inl a, t ++ [e]).

Definition println (text : string) : M unit := emit (Println text) tt.

Definition printf (format : string) (operands : list fmt.Operand) : M unit :=
  emit (Printf format operands) tt.

(** [os.Exit(code)]. *)
Definition exit {A} (code : Z) : M A := fun t => (inr (Exit code), t).

Definition block {A} : M A := fun t => (inr Blocked, t).

(** One iteration of the [select] in [waitForResult] receives from one of
    its two channels. *)
Inductive Ready : Type :=
| recvSignal (sig : os.Signal)
| recvWait.

(** The outside world of one run.  [CombinedOutput] answers a command run
    to its end, given everything the run did before; [background] is what
    the [docker wait] started in the goroutine comes back with;
    [selects] lists, iteration by iteration, the channel the [select]
    receives from (nothing is ready any more once the list is used up). *)
Record World : Type := {
  CombinedOutput : Trace -> list string -> string * option error;
  background : string * option error;
  selects : list Ready
}.

(** ** The program *)

Record cmdResult : Type := {
  output : string;
  exitCode : Z;
  err : option error
}.

(** In Go the inner assertion [exiterr.Sys().(syscall.WaitStatus)] has no
    second result, and the condition of the inner [if] is the [ok] of the
    outer one, which is true there. *)
Definition getExitCode (err : error) : Z * option error :=
  match err with
  | ExitError sys => (syscall.ExitStatus sys, None)
  | _ => (0%Z, Some (errorString "failed to get exit code"))
  end.

(** [runCommandWithOutput] from the return of [cmd.CombinedOutput()] on. *)
Definition commandResult (r : string * option error)
  : string * Z * option error :=
  let '(out, err) := r in
  let exitCode :=
    match err with
    | Some e =>
        let '(exitCode, exiterr) := getExitCode e in
        if isErr exiterr then 127%Z else exitCode
    | None => 0%Z
    end in
  (out, exitCode, err).

Section Program.

Variable w : World.

Definition runCommandWithOutput (argv : list string)
  : M (string * Z * option error) :=
  fun t => (inl (commandResult (CombinedOutput w t argv)), t ++ [Run argv]).

Definition runCommandWithOutputResult (argv : list string) : M cmdResult :=
  '(output, exitCode, err) <- runCommandWithOutput argv ;;
  ret {| output := output; exitCode := exitCode; err := err |}.

(** [go runCommandSendResult(cmd, c)]: the command runs beside the main
    flow, and the channel [c] later holds its one result, which is what
    this returns. *)
Definition runCommandSendResult (argv : list string) : M cmdResult :=
  let '(output, exitCode, err) := commandResult (background w) in
  emit (Spawn argv) {| output := output; exitCode := exitCode; err := err |}.

(** The loop of [waitForResult]; [action] is declared outside the loop
    and keeps its value when the signal is neither of the two cases. *)
Fixpoint waitForResult_loop (containerID action : string)
    (signals : list Ready) (waitCmd : cmdResult) : M cmdResult :=
  match signals with
  | [] => block
  | recvSignal sig :: signals' =>
      let action :=
        if (sig =? os.Interrupt)%Z then "stop"
        else if (sig =? os.Kill)%Z then "kill"
        else action in
      printf ("Received signal: %s; cleaning up" ++ nl) [fmt.OSignal sig] ;;
      '(out, _, err) <- runCommandWithOutput ["docker"; action; containerID] ;;
      (if isErr err || strings.Contains out "Error"
       then printf ("stopping container via signal %s failed" ++ nl)
                   [fmt.OSignal sig]
       else ret tt) ;;
      waitForResult_loop containerID action signals' waitCmd
  | recvWait :: _ => ret waitCmd
  end.

Definition waitForResult (containerID : string) (signals : list Ready)
    (waitCmd : cmdResult) : M cmdResult :=
  waitForResult_loop containerID "" signals waitCmd.

Fixpoint validateArgs_loop (args : list string) (failed : bool) : M bool :=
  match args with
  | [] => ret failed
  | val :: args' =>
      failed <- (if val =? "-i"
                 then println "ERROR: dockrun doesn't support -i" ;; ret true
                 else ret failed) ;;
      failed <- (if val =? "-a"
                 then printf "ERROR: dockrun doesn't support -a" [] ;; ret true
                 else ret failed) ;;
      validateArgs_loop args' failed
  end.

Definition validateArgs (args : list string) : M unit :=
  failed <- (if Nat.ltb (List.length args) 1
             then println ("dockrun [OPTIONS] IMAGE [COMMAND]" ++ nl) ;;
                  println "OPTIONS - same options as docker run, without -a & -i" ;;
                  ret true
             else ret false) ;;
  failed <- validateArgs_loop args failed ;;
  if failed then exit 1%Z else ret tt.

(** [main], lines 105 to 122: the container is created and started, and
    its identifier read from the output. *)
Definition main_run (args : list string) : M string :=
  let defaultArgs := ["run"; "-d"] in
  let finalArgs := defaultArgs ++ args in
  '(out, exitCode, err) <- runCommandWithOutput ("docker" :: finalArgs) ;;
  containerID <-
    (if isErr err
     then printf "docker run: %s" [fmt.OString out] ;;
          printf ("ERROR docker exited with exit code: %d" ++ nl)
                 [fmt.OInt exitCode] ;;
          exit 1%Z
     else ret (strings.Trim out nl)) ;;
  if Nat.ltb (String.length containerID) 4
  then printf "ERROR: docker container ID is too small, possibly invalid" [] ;;
       exit 1%Z
  else ret containerID.

(** [main], lines 125 to 130: [docker wait] goes to the background and
    the loop waits for its result. *)
Definition main_wait (containerID : string) : M cmdResult :=
  waitCmdRes <- runCommandSendResult ["docker"; "wait"; containerID] ;;
  waitForResult containerID (selects w) waitCmdRes.

(** [main], lines 132 to 140: [docker wait] is run again when the first
    one came back with an error. *)
Definition main_retry (containerID : string) (waitResult : cmdResult)
  : M (string * option error) :=
  let waitOutput := output waitResult in
  let waiterr := err waitResult in
  if isErr waiterr
  then '(waitOutput, _, waiterr) <-
         runCommandWithOutput ["docker"; "wait"; containerID] ;;
       ret (waitOutput, waiterr)
  else ret (waitOutput, waiterr).

(** [main], lines 143 to 155: the exit code is read from the output. *)
Definition main_exitCode (waitOutput : string) (waiterr : option error)
  : M Z :=
  (if isErr waiterr || strings.Contains waitOutput "Error"
   then printf ("ERROR: docker wait: %s %s" ++ nl)
               [fmt.OString waitOutput; fmt.OError waiterr] ;;
        printf ("ERROR: docker wait failed" ++ nl) [] ;;
        exit 1%Z
   else ret tt) ;;
  let waitOutput := strings.Trim waitOutput nl in
  match strconv.Atoi waitOutput with
  | None =>
      println waitOutput ;;
      printf ("ERROR: failed to convert exit code to int" ++ nl) [] ;;
      exit 1%Z
  | Some finalExitCode => ret finalExitCode
  end.

(** [main], lines 157 to 164. *)
Definition main_logs (containerID : string) : M unit :=
  '(logsOutput, _, logserr) <-
    runCommandWithOutput ["docker"; "logs"; containerID] ;;
  if isErr logserr || strings.Contains logsOutput "No such container"
  then printf ("ERROR: docker logs: %s %s" ++ nl)
              [fmt.OString logsOutput; fmt.OError logserr] ;;
       printf ("ERROR: docker logs failed" ++ nl) []
  else printf logsOutput [].

(** [main], lines 166 to 172. *)
Definition main_rm (containerID : string) : M unit :=
  '(rmOutput, _, rmerr) <-
    runCommandWithOutput ["docker"; "rm"; containerID] ;;
  if isErr rmerr || strings.Contains rmOutput "Error"
  then printf ("ERROR: docker rm: %s %s" ++ nl)
              [fmt.OString rmOutput; fmt.OError rmerr] ;;
       printf ("ERROR: docker rm failed" ++ nl) []
  else ret tt.

(** [main] with [os.Args[1:]] as its argument. *)
Definition main (args : list string) : M unit :=
  validateArgs args ;;
  containerID <- main_run args ;;
  waitResult <- main_wait containerID ;;
  '(waitOutput, waiterr) <- main_retry containerID waitResult ;;
  finalExitCode <- main_exitCode waitOutput waiterr ;;
  main_logs containerID ;;
  main_rm containerID ;;
  exit finalExitCode.

(** The run of the whole program: how it stops and what it did. *)
Definition dockrun (args : list string) : Halt * Trace :=
  match main args [] with
  | (inl _, t) => (Exit 0%Z, t)
  | (inr h, t) => (h, t)
  end.

End Program.

Arguments runCommandWithOutput w argv t : simpl never.

(** ** Points of a run *)

Section Points.

Variable w : World.

(** [main] up to the return of [waitForResult] (line 130): the container
    identifier and the result the loop returned. *)
Definition until_wait (args : list string) : M (string * cmdResult) :=
  validateArgs args ;;
  containerID <- main_run w args ;;
  waitResult <- main_wait w containerID ;;
  ret (containerID, waitResult).

(** [main] up to the end of the retry (line 141): the identifier, and the
    output and the error the rest of [main] goes on with. *)
Definition until_retry (args : list string)
  : M (string * (string * option error)) :=
  '(containerID, waitResult) <- until_wait args ;;
  resolved <- main_retry w containerID waitResult ;;
  ret (containerID, resolved).

(** [main] up to the conversion of the exit code (line 155): the
    identifier and [finalExitCode]. *)
Definition until_exitCode (args : list string) : M (string * Z) :=
  '(containerID, (waitOutput, waiterr)) <- until_retry args ;;
  finalExitCode <- main_exitCode waitOutput waiterr ;;
  ret (containerID, finalExitCode).

End Points.

(** ** The rest of [main] from a point on *)

Section Rest.

Variable w : World.

(** From line 157 on. *)
Definition after_exitCode (containerID : string) (finalExitCode : Z)
  : M unit :=
  main_logs w containerID ;;
  main_rm w containerID ;;
  exit finalExitCode.

(** From line 143 on. *)
Definition after_retry (containerID waitOutput : string)
    (waiterr : option error) : M unit :=
  finalExitCode <- main_exitCode waitOutput waiterr ;;
  after_exitCode containerID finalExitCode.

(** From line 132 on. *)
Definition after_wait (containerID : string) (waitResult : cmdResult)
  : M unit :=
  '(waitOutput, waiterr) <- main_retry w containerID waitResult ;;
  after_retry containerID waitOutput waiterr.

(** From line 125 on. *)
Definition after_run (containerID : string) : M unit :=
  waitResult <- main_wait w containerID ;;
  after_wait containerID waitResult.

End Rest.

(** ** Reading traces *)

Definition isPrint (e : Event) : bool :=
  match e with
  | Println _ | Printf _ _ => true
  | Run _ | Spawn _ => false
  end.

(** The commands of a trace, in order, run to the end or spawned. *)
Fixpoint invocations (t : Trace) : list (list string) :=
  match t with
  | [] => []
  | Run argv :: t' | Spawn argv :: t' => argv :: invocations t'
  | _ :: t' => invocations t'
  end.

Definition argv_eqb (a b : list string) : bool :=
  if list_eq_dec string_dec a b then true else false.

(** How often a trace runs the command [argv] to its end. *)
Definition timesRun (argv : list string) (t : Trace) : nat :=
  List.length
    (filter (fun e => match e with Run a => argv_eqb a argv | _ => false end) t).

(** How often a trace starts the command [argv] in a goroutine. *)
Definition timesSpawned (argv : list string) (t : Trace) : nat :=
  List.length
    (filter (fun e => match e with Spawn a => argv_eqb a argv | _ => false end) t).

(** The signals a [select] schedule delivers before the wait channel. *)
Fixpoint signalsBefore (signals : list Ready) : list os.Signal :=
  match signals with
  | recvSignal sig :: signals' => sig :: signalsBefore signals'
  | _ => []
  end.

(** Whether a [select] schedule ever receives from the wait channel. *)
Definition completes (signals : list Ready) : bool :=
  existsb (fun r => match r with recvWait => true | _ => false end) signals.

(** The termination signals of the specification and their docker verb. *)
Definition termination (sig : os.Signal) : Prop :=
  sig = os.Interrupt \/ sig = os.Kill.

Definition verbOf (sig : os.Signal) : string :=
  if (sig =? os.Interrupt)%Z then "stop" else "kill".

(** Whether an event, if it is a command, is [docker <verb> <handle>]. *)
Definition onHandle (handle : string) (e : Event) : bool :=
  match e with
  | Run [d; _; h] | Spawn [d; _; h] => (d =? "docker") && (h =? handle)
  | Run _ | Spawn _ => false
  | _ => true
  end.

(** The words of the specification for the handle: the output without
    its trailing newline. *)
Fixpoint trimTrailingNewline (out : string) : string :=
  match out with
  | "" => ""
  | String c rest =>
      if (rest =? "") && Ascii.eqb c "010" then ""
      else String c (trimTrailingNewline rest)
  end.

(** The arguments [validateArgs] refuses. *)
Definition rejected (val : string) : bool := (val =? "-i") || (val =? "-a").

(** The events of the relay loop for the container [handle]: prints, and
    [docker <action> <handle>] run to its end, where the action is
    ["stop"], ["kill"] or the one the loop was entered with. *)
Definition relayEvent (handle action : string) (e : Event) : bool :=
  match e with
  | Run [d; a; h] =>
      (d =? "docker") && (h =? handle)
      && ((a =? action) || (a =? "stop") || (a =? "kill"))
  | Run _ | Spawn _ => false
  | _ => true
  end.

(** The events after the wait loop, and those of the loop itself, for
    the container [handle]: prints, and docker commands on [handle] run
    to their end, none of them [docker wait]. *)
Definition auxEvent (handle : string) (e : Event) : bool :=
  match e with
  | Run [d; a; h] => (d =? "docker") && (h =? handle) && negb (a =? "wait")
  | Run _ | Spawn _ => false
  | _ => true
  end.

(** The command lines of [main]. *)
Definition dockerRun (args : list string) : list string :=
  "docker" :: "run" :: "-d" :: args.

Definition dockerWait (containerID : string) : list string :=
  ["docker"; "wait"; containerID].

Definition dockerLogs (containerID : string) : list string :=
  ["docker"; "logs"; containerID].

Definition dockerRm (containerID : string) : list string :=
  ["docker"; "rm"; containerID].

(** The first print of the relay loop for a signal. *)
Definition received (sig : os.Signal) : Event :=
  Printf ("Received signal: %s; cleaning up" ++ nl) [fmt.OSignal sig].

(** What the conversion of lines 143 to 155 makes of a wait outcome:
    [None] when [main] stops there with status 1. *)
Definition exitCodeOf (waitOutput : string) (waiterr : option error)
  : option Z :=
  if isErr waiterr || strings.Contains waitOutput "Error" then None
  else strconv.Atoi (strings.Trim waitOutput nl).

(** ** Some outside worlds *)

(** A world whose docker answers by verb alone. *)
Definition scripted (run wait logs rm other bg : string * option error)
    (signals : list Ready) : World :=
  {| CombinedOutput := fun _ argv =>
       match argv with
       | _ :: verb :: _ =>
           if verb =? "run" then run
           else if verb =? "wait" then wait
           else if verb =? "logs" then logs
           else if verb =? "rm" then rm
           else other
       | _ => other
       end;
     background := bg;
     selects := signals |}.

Definition ok (out : string) : string * option error := (out, None).

Definition exited (out : string) (status : Z) : string * option error :=
  (out, Some (ExitError (Z.shiftl status 8))).

Definition someID : string := "f2a9c1d07b3e".

(** Everything goes well; the container exits with 0. *)
Definition calm : World :=
  scripted (ok (someID ++ nl)) (ok ("0" ++ nl)) (ok ("hello" ++ nl))
           (ok (someID ++ nl)) (ok "") (ok ("0" ++ nl)) [recvWait].

(** An interrupt arrives and is relayed; the background [docker wait]
    comes back with an error, the second one tells 137. *)
Definition interrupted : World :=
  scripted (ok (someID ++ nl)) (ok ("137" ++ nl)) (ok ("bye" ++ nl))
           (ok (someID ++ nl)) (ok (someID ++ nl)) (exited "" 1)
           [recvSignal os.Interrupt; recvSignal os.Kill; recvWait].

(** The container exits with 3 and is gone before its logs are read. *)
Definition vanished : World :=
  scripted (ok (someID ++ nl)) (ok ("3" ++ nl))
           (ok ("Error: No such container: " ++ someID ++ nl))
           (exited ("Error: No such container: " ++ someID ++ nl) 1)
           (ok "") (ok ("3" ++ nl)) [recvWait].

(** [docker wait] answers ["0"] with no newline after it. *)
Definition bare : World :=
  scripted (ok (someID ++ nl)) (ok "0") (ok "") (ok someID) (ok "")
           (ok "0") [recvWait].

(** [docker wait] prints a number above 255. *)
Definition large : World :=
  scripted (ok (someID ++ nl)) (ok ("300" ++ nl)) (ok "") (ok someID) (ok "")
           (ok ("300" ++ nl)) [recvWait].

(** [docker run] prints an empty line before the identifier. *)
Definition framed : World :=
  scripted (ok (nl ++ someID ++ nl)) (ok ("0" ++ nl)) (ok "") (ok someID)
           (ok "") (ok ("0" ++ nl)) [recvWait].

(** The container wrote a percent sign at the end of its output. *)
Definition percent : World :=
  scripted (ok (someID ++ nl)) (ok ("0" ++ nl)) (ok "progress: 100%")
           (ok someID) (ok "") (ok ("0" ++ nl)) [recvWait].

(** A command the relay loop can run on [handle]: [docker stop],
    [docker kill], or docker with the empty verb the loop starts with. *)
Definition relayCommand (handle : string) (argv : list string) : Prop :=
  exists a, argv = ["docker"; a; handle] /\ (a = "" \/ a = "stop" \/ a = "kill").

(** A signal the [switch] of [waitForResult] has no case for. *)
Definition unmapped (sig : os.Signal) : Prop :=
  sig <> os.Interrupt /\ sig <> os.Kill.

(** [docker run] fails: the image is not there. *)
Definition refused : World :=
  scripted (exited ("Unable to find image" ++ nl) 125) (ok "") (ok "") (ok "")
           (ok "") (ok "") [recvWait].

(** [docker run] prints two characters. *)
Definition terse : World :=
  scripted (ok ("ab" ++ nl)) (ok ("0" ++ nl)) (ok "") (ok "") (ok "")
           (ok ("0" ++ nl)) [recvWait].

(** An interrupt is relayed, and [docker wait] never comes back. *)
Definition hung : World :=
  scripted (ok (someID ++ nl)) (ok ("0" ++ nl)) (ok "") (ok "") (ok someID)
           (ok ("0" ++ nl)) [recvSignal os.Interrupt].

(** [docker wait] prints no number. *)
Definition garbled : World :=
  scripted (ok (someID ++ nl)) (ok "abc") (ok "") (ok "") (ok "")
           (ok "abc") [recvWait].

(** * Properties *)

#[local] Arguments String.eqb : simpl never.

(** ** The monad *)

Lemma bind_inl {A B} (m : M A) (k : A -> M B) t a t' :
  m t = (inl a, t') -> bind m k t = k a t'.
Proof. unfold bind; intros ->; reflexivity. Qed.

Lemma bind_inr {A B} (m : M A) (k : A -> M B) t h t' :
  m t = (inr h, t') -> bind m k t = (inr h, t').
Proof. unfold bind; intros ->; reflexivity. Qed.

Lemma bind_inv {A B} (m : M A) (k : A -> M B) t b t2 :
  bind m k t = (inl b, t2) ->
  exists a t1, m t = (inl a, t1) /\ k a t1 = (inl b, t2).
Proof.
  unfold bind. destruct (m t) as [[a|h] t1]; intros H.
  - exists a, t1; split; [reflexivity | exact H].
  - discriminate H.
Qed.

(** ** Traces *)

Lemma invocations_app t1 t2 :
  invocations (t1 ++ t2) = invocations t1 ++ invocations t2.
Proof.
  induction t1 as [|e t1 IH]; simpl; [reflexivity|].
  destruct e; simpl; rewrite IH; reflexivity.
Qed.

Lemma invocations_prints t : forallb isPrint t = true -> invocations t = [].
Proof.
  induction t as [|e t IH]; simpl; [reflexivity|].
  destruct e; simpl; try discriminate; exact IH.
Qed.

Lemma timesRun_app argv t1 t2 :
  timesRun argv (t1 ++ t2) = timesRun argv t1 + timesRun argv t2.
Proof. unfold timesRun. rewrite filter_app, length_app. reflexivity. Qed.

Lemma timesSpawned_app argv t1 t2 :
  timesSpawned argv (t1 ++ t2) = timesSpawned argv t1 + timesSpawned argv t2.
Proof. unfold timesSpawned. rewrite filter_app, length_app. reflexivity. Qed.

Lemma timesRun_prints argv t : forallb isPrint t = true -> timesRun argv t = 0.
Proof.
  unfold timesRun. induction t as [|e t IH]; simpl; [reflexivity|].
  destruct e; simpl; try discriminate; exact IH.
Qed.

Lemma timesSpawned_prints argv t :
  forallb isPrint t = true -> timesSpawned argv t = 0.
Proof.
  unfold timesSpawned. induction t as [|e t IH]; simpl; [reflexivity|].
  destruct e; simpl; try discriminate; exact IH.
Qed.

Lemma argv_eqb_refl a : argv_eqb a a = true.
Proof. unfold argv_eqb. destruct (list_eq_dec string_dec a a); congruence. Qed.

Lemma argv_eqb_neq a b : a <> b -> argv_eqb a b = false.
Proof. unfold argv_eqb. destruct (list_eq_dec string_dec a b); congruence. Qed.

(** ** Running a command *)

Lemma runCommandWithOutput_eq w argv t :
  runCommandWithOutput w argv t
  = (inl (commandResult (CombinedOutput w t argv)), t ++ [Run argv]).
Proof. reflexivity. Qed.

Lemma commandResult_eq out e :
  exists code, commandResult (out, e) = (out, code, e).
Proof. unfold commandResult. eexists; reflexivity. Qed.

(** C10: [runCommandWithOutput] runs the command once and hands back its
    output and error unchanged; the exit code it reports is 0 when there
    is no error, the exit status of the process when the error is an
    [*exec.ExitError], and 127 for any other error. *)
Theorem C10_runCommandWithOutput_exit_code (w : World) argv t :
  exists out code e,
    runCommandWithOutput w argv t = (inl (out, code, e), t ++ [Run argv])
    /\ CombinedOutput w t argv = (out, e)
    /\ match e with
       | None => code = 0%Z
       | Some (ExitError sys) => code = syscall.ExitStatus sys
       | Some (errorString _) => code = 127%Z
       end.
Proof.
  rewrite runCommandWithOutput_eq.
  destruct (CombinedOutput w t argv) as [out e].
  destruct e as [[sys|msg]|]; simpl.
  - exists out, (syscall.ExitStatus sys), (Some (ExitError sys)). auto.
  - exists out, 127%Z, (Some (errorString msg)). auto.
  - exists out, 0%Z, None. auto.
Qed.

(** ** Argument validation *)

Lemma validateArgs_loop_spec args : forall failed t,
  exists prints,
    validateArgs_loop args failed t
    = (inl (failed || existsb rejected args), t ++ prints)
    /\ forallb isPrint prints = true
    /\ (existsb rejected args = true -> prints <> [])
    /\ (existsb rejected args = false -> prints = []).
Proof.
  induction args as [|val args IH]; intros failed t; simpl.
  - exists []. rewrite app_nil_r, orb_false_r. repeat split; auto; discriminate.
  - unfold rejected at 1 3 5. unfold bind, println, printf, emit, ret.
    destruct (val =? "-i") eqn:Hi; destruct (val =? "-a") eqn:Ha; simpl.
    + destruct (IH true ((t ++ [Println "ERROR: dockrun doesn't support -i"])
                  ++ [Printf "ERROR: dockrun doesn't support -a" []]))
        as (p & E & F & _ & _).
      exists (Println "ERROR: dockrun doesn't support -i"
              :: Printf "ERROR: dockrun doesn't support -a" [] :: p).
      rewrite E, orb_true_r. rewrite <- !app_assoc. simpl.
      repeat split; auto; discriminate.
    + destruct (IH true (t ++ [Println "ERROR: dockrun doesn't support -i"]))
        as (p & E & F & _ & _).
      exists (Println "ERROR: dockrun doesn't support -i" :: p).
      rewrite E, orb_true_r. rewrite <- !app_assoc. simpl.
      repeat split; auto; discriminate.
    + destruct (IH true (t ++ [Printf "ERROR: dockrun doesn't support -a" []]))
        as (p & E & F & _ & _).
      exists (Printf "ERROR: dockrun doesn't support -a" [] :: p).
      rewrite E, orb_true_r. rewrite <- !app_assoc. simpl.
      repeat split; auto; discriminate.
    + destruct (IH failed t) as (p & E & F & G & H).
      exists p. rewrite E. repeat split; auto.
Qed.

Lemma validateArgs_spec args t :
  exists prints,
    forallb isPrint prints = true
    /\ if Nat.ltb (List.length args) 1 || existsb rejected args
       then validateArgs args t = (inr (Exit 1%Z), t ++ prints) /\ prints <> []
       else validateArgs args t = (inl tt, t) /\ prints = [].
Proof.
  destruct args as [|val args].
  - exists [Println ("dockrun [OPTIONS] IMAGE [COMMAND]" ++ nl);
            Println "OPTIONS - same options as docker run, without -a & -i"].
    split; [reflexivity|]. simpl. split; [|discriminate].
    unfold validateArgs, bind, println, emit, ret, exit; simpl.
    rewrite <- app_assoc. reflexivity.
  - destruct (validateArgs_loop_spec (val :: args) false t) as (p & E & F & G & H).
    exists p. split; [exact F|].
    assert (V : validateArgs (val :: args) t
                = (if existsb rejected (val :: args)
                   then exit 1%Z else ret tt) (t ++ p)).
    { change (validateArgs (val :: args) t)
        with (bind (validateArgs_loop (val :: args) false)
                (fun failed => if failed then exit 1%Z else ret tt) t).
      rewrite (bind_inl _ _ _ _ _ E). reflexivity. }
    rewrite V.
    change (Nat.ltb (List.length (val :: args)) 1) with false.
    rewrite orb_false_l.
    destruct (existsb rejected (val :: args)) eqn:R.
    + split; [reflexivity | auto].
    + rewrite (H eq_refl), app_nil_r. split; reflexivity.
Qed.

Lemma rejected_In args :
  args = [] \/ In "-i" args \/ In "-a" args ->
  Nat.ltb (List.length args) 1 || existsb rejected args = true.
Proof.
  intros [->|[H|H]]; [reflexivity| |];
    apply orb_true_iff; right; apply existsb_exists;
    eexists; (split; [exact H | reflexivity]).
Qed.

(** C9: when the argument vector is empty, or has ["-i"] or ["-a"] in it,
    the program stops with status 1; it has printed something by then,
    and everything it did was printing: no command was run or started. *)
Theorem C9_bad_arguments_exit_1 (w : World) (args : list string) :
  args = [] \/ In "-i" args \/ In "-a" args ->
  exists prints,
    dockrun w args = (Exit 1%Z, prints)
    /\ prints <> []
    /\ forallb isPrint prints = true
    /\ invocations prints = [].
Proof.
  intros H. apply rejected_In in H.
  destruct (validateArgs_spec args []) as (p & F & V).
  rewrite H in V. destruct V as [V N]. simpl in V.
  exists p. unfold dockrun, main.
  rewrite (bind_inr _ _ _ _ _ V).
  repeat split; auto using invocations_prints.
Qed.

Lemma C9_bad_arguments_witness :
  exists prints,
    dockrun calm ["-a"; "busybox"] = (Exit 1%Z, prints)
    /\ prints <> []
    /\ forallb isPrint prints = true
    /\ invocations prints = [].
Proof.
  apply (C9_bad_arguments_exit_1 calm ["-a"; "busybox"]).
  right; right; simpl; left; reflexivity.
Defined.

(** ** The relay loop *)

Section Relay.

Variable w : World.
Variable containerID : string.
Variable waitCmd : cmdResult.

(** One signal: the action is chosen, the command is run once, and the
    loop goes on whatever the command answered. *)
Lemma waitForResult_loop_signal action sig signals t :
  exists prints action',
    waitForResult_loop w containerID action (recvSignal sig :: signals) waitCmd t
    = waitForResult_loop w containerID action' signals waitCmd
        (t ++ received sig :: Run ["docker"; action'; containerID] :: prints)
    /\ forallb isPrint prints = true
    /\ action' = (if (sig =? os.Interrupt)%Z then "stop"
                  else if (sig =? os.Kill)%Z then "kill" else action).
Proof.
  cbn [waitForResult_loop].
  set (action' := if (sig =? os.Interrupt)%Z then "stop"
                  else if (sig =? os.Kill)%Z then "kill" else action).
  unfold bind at 1. unfold printf at 1. unfold emit at 1.
  unfold bind at 1. rewrite runCommandWithOutput_eq.
  destruct (CombinedOutput w _ ["docker"; action'; containerID]) as [out e].
  destruct (commandResult_eq out e) as [code ->].
  cbv beta iota.
  destruct (isErr e || strings.Contains out "Error").
  - exists [Printf ("stopping container via signal %s failed" ++ nl)
                   [fmt.OSignal sig]], action'.
    unfold bind, printf, emit. rewrite <- !app_assoc. auto.
  - exists [], action'.
    unfold bind, ret. rewrite <- !app_assoc. auto.
Qed.

Lemma relayEvent_run action a :
  a = "stop" \/ a = "kill" \/ a = action ->
  relayEvent containerID action (Run ["docker"; a; containerID]) = true.
Proof.
  intros H. cbn [relayEvent]. rewrite !String.eqb_refl. cbn [andb].
  destruct H as [-> | [-> | ->]]; rewrite String.eqb_refl;
    rewrite ?orb_true_r; reflexivity.
Qed.

Lemma relayEvent_print action e :
  isPrint e = true -> relayEvent containerID action e = true.
Proof. destruct e; cbn [relayEvent isPrint]; congruence. Qed.

Lemma relayEvent_weaken action action' e :
  action' = "stop" \/ action' = "kill" \/ action' = action ->
  relayEvent containerID action' e = true ->
  relayEvent containerID action e = true.
Proof.
  intros H. destruct e as [argv| | |]; cbn [relayEvent]; auto.
  destruct argv as [|d [|a [|h [|]]]]; auto.
  intros R. apply andb_true_iff in R. destruct R as [D R].
  rewrite D. cbn [andb]. apply orb_true_iff in R. destruct R as [R|R].
  - apply orb_true_iff in R. destruct R as [R|R].
    + apply String.eqb_eq in R. subst a.
      destruct H as [-> | [-> | ->]]; rewrite String.eqb_refl;
        rewrite ?orb_true_r; reflexivity.
    + rewrite R, orb_true_r. reflexivity.
  - rewrite R, orb_true_r. reflexivity.
Qed.

(** The loop as a whole: it returns the wait result when the schedule
    reaches the wait channel and stays blocked otherwise; meanwhile it
    prints and runs docker commands on the container, nothing else. *)
Lemma waitForResult_loop_spec signals : forall action t,
  exists relay,
    waitForResult_loop w containerID action signals waitCmd t
    = ((if completes signals then inl waitCmd else inr Blocked), t ++ relay)
    /\ forallb (relayEvent containerID action) relay = true.
Proof.
  induction signals as [|[sig|] signals IH]; intros action t.
  - exists []. rewrite app_nil_r. split; reflexivity.
  - destruct (waitForResult_loop_signal action sig signals t)
      as (prints & action' & E & P & A).
    destruct (IH action' (t ++ received sig
                            :: Run ["docker"; action'; containerID] :: prints))
      as (relay & E' & R).
    exists ((received sig :: Run ["docker"; action'; containerID] :: prints)
            ++ relay).
    assert (HA : action' = "stop" \/ action' = "kill" \/ action' = action).
    { rewrite A. destruct (sig =? os.Interrupt)%Z; auto.
      destruct (sig =? os.Kill)%Z; auto. }
    split.
    + rewrite E, E', app_assoc. reflexivity.
    + rewrite forallb_app. apply andb_true_iff. split.
      * cbn [forallb]. rewrite relayEvent_run by exact HA.
        cbn [received relayEvent andb].
        apply forallb_forall. intros e He.
        apply relayEvent_print.
        exact (proj1 (forallb_forall _ _) P e He).
      * apply forallb_forall. intros e He.
        apply (relayEvent_weaken action action' e HA).
        exact (proj1 (forallb_forall _ _) R e He).
  - exists []. rewrite app_nil_r. split; reflexivity.
Qed.

End Relay.

Lemma relay_of_termination_signals (w : World) containerID waitCmd signals :
  forall action t,
    Forall termination (signalsBefore signals) ->
    exists relay,
      waitForResult_loop w containerID action signals waitCmd t
      = ((if completes signals then inl waitCmd else inr Blocked), t ++ relay)
      /\ invocations relay
         = map (fun sig => ["docker"; verbOf sig; containerID])
               (signalsBefore signals).
Proof.
  induction signals as [|[sig|] signals IH]; intros action t T.
  - exists []. rewrite app_nil_r. split; reflexivity.
  - cbn [signalsBefore] in T. inversion T as [|? ? Tsig Trest]; subst.
    destruct (waitForResult_loop_signal w containerID waitCmd action sig signals t)
      as (prints & action' & E & P & A).
    assert (HA : action' = verbOf sig).
    { rewrite A. unfold verbOf.
      destruct Tsig as [-> | ->]; reflexivity. }
    destruct (IH action' (t ++ received sig
                            :: Run ["docker"; action'; containerID] :: prints)
                Trest)
      as (relay & E' & R).
    exists ((received sig :: Run ["docker"; action'; containerID] :: prints)
            ++ relay).
    split.
    + rewrite E, E', app_assoc. reflexivity.
    + rewrite invocations_app. cbn [invocations received signalsBefore map].
      rewrite (invocations_prints prints P), R, HA. reflexivity.
  - exists []. rewrite app_nil_r. split; reflexivity.
Qed.

(** C3: in [waitForResult], when the signals received are interrupts and
    kills, the commands the loop runs are exactly one per signal, in
    order: [docker stop <id>] for an interrupt and [docker kill <id>] for
    a kill.  Whatever those commands answer (the world [w] is arbitrary),
    the loop does not stop the program: it returns the wait result if the
    wait channel is ever received from, and stays blocked otherwise. *)
Theorem C3_signal_relay (w : World) containerID signals waitCmd t :
  Forall termination (signalsBefore signals) ->
  exists relay,
    waitForResult w containerID signals waitCmd t
    = ((if completes signals then inl waitCmd else inr Blocked), t ++ relay)
    /\ invocations relay
       = map (fun sig => ["docker"; verbOf sig; containerID])
             (signalsBefore signals).
Proof.
  intros T. unfold waitForResult.
  apply relay_of_termination_signals. exact T.
Qed.

(** ** The steps of [main] *)

Section Steps.

Variable w : World.

Lemma main_run_spec args t :
  exists prints,
    main_run w args t
    = ((let '(out, e) := CombinedOutput w t (dockerRun args) in
        if isErr e || Nat.ltb (String.length (strings.Trim out nl)) 4
        then inr (Exit 1%Z) else inl (strings.Trim out nl)),
       t ++ Run (dockerRun args) :: prints)
    /\ forallb isPrint prints = true
    /\ ((let '(out, e) := CombinedOutput w t (dockerRun args) in
         isErr e || Nat.ltb (String.length (strings.Trim out nl)) 4) = false ->
        prints = []).
Proof.
  unfold main_run. cbn zeta.
  change ("docker" :: ["run"; "-d"] ++ args) with (dockerRun args).
  unfold bind at 1. rewrite runCommandWithOutput_eq.
  destruct (CombinedOutput w t (dockerRun args)) as [out e].
  destruct (commandResult_eq out e) as [code ->]. cbv beta iota.
  destruct e as [e|]; cbn [isErr orb].
  - eexists [_; _]. split.
    { unfold bind, printf, emit, exit. rewrite <- !app_assoc. reflexivity. }
    split; [reflexivity | discriminate].
  - unfold bind at 1. unfold ret at 1.
    destruct (Nat.ltb (String.length (strings.Trim out nl)) 4).
    + eexists [_]. split.
      { unfold bind, printf, emit, exit. rewrite <- !app_assoc. reflexivity. }
      split; [reflexivity | discriminate].
    + exists []. auto.
Qed.

Lemma runCommandSendResult_spec argv t :
  exists waitResult,
    runCommandSendResult w argv t = (inl waitResult, t ++ [Spawn argv])
    /\ (output waitResult, err waitResult) = background w.
Proof.
  unfold runCommandSendResult.
  destruct (background w) as [out e].
  destruct (commandResult_eq out e) as [code ->].
  eexists. split; reflexivity.
Qed.

Lemma main_wait_spec containerID t :
  exists waitResult relay,
    main_wait w containerID t
    = ((if completes (selects w) then inl waitResult else inr Blocked),
       t ++ Spawn (dockerWait containerID) :: relay)
    /\ (output waitResult, err waitResult) = background w
    /\ forallb (relayEvent containerID "") relay = true.
Proof.
  unfold main_wait.
  destruct (runCommandSendResult_spec (dockerWait containerID) t)
    as (waitResult & E & B).
  destruct (waitForResult_loop_spec w containerID waitResult (selects w) ""
              (t ++ [Spawn (dockerWait containerID)])) as (relay & E' & R).
  exists waitResult, relay.
  rewrite (bind_inl _ _ _ _ _ E). unfold waitForResult.
  rewrite E', <- app_assoc. auto.
Qed.

Lemma main_retry_spec containerID waitResult t :
  main_retry w containerID waitResult t
  = if isErr (err waitResult)
    then (inl (CombinedOutput w t (dockerWait containerID)),
          t ++ [Run (dockerWait containerID)])
    else (inl (output waitResult, None), t).
Proof.
  unfold main_retry. cbn zeta.
  destruct (err waitResult) as [e|]; cbn [isErr]; [|reflexivity].
  unfold bind. rewrite runCommandWithOutput_eq.
  fold (dockerWait containerID).
  destruct (CombinedOutput w t (dockerWait containerID)) as [out e'].
  destruct (commandResult_eq out e') as [code ->]. reflexivity.
Qed.

Lemma main_exitCode_spec waitOutput waiterr t :
  exists prints,
    main_exitCode waitOutput waiterr t
    = match exitCodeOf waitOutput waiterr with
      | Some finalExitCode => (inl finalExitCode, t)
      | None => (inr (Exit 1%Z), t ++ prints)
      end
    /\ forallb isPrint prints = true.
Proof.
  unfold main_exitCode, exitCodeOf.
  destruct (isErr waiterr || strings.Contains waitOutput "Error").
  - eexists [_; _]. split.
    { unfold bind, printf, emit, exit. rewrite <- !app_assoc. reflexivity. }
    reflexivity.
  - unfold bind at 1. unfold ret at 1. cbn zeta.
    destruct (strconv.Atoi (strings.Trim waitOutput nl)).
    + exists []. split; reflexivity.
    + eexists [_; _]. split.
      { unfold bind, println, printf, emit, exit.
        rewrite <- !app_assoc. reflexivity. }
      reflexivity.
Qed.

Lemma main_logs_spec containerID t :
  exists prints,
    main_logs w containerID t
    = (inl tt, t ++ Run (dockerLogs containerID) :: prints)
    /\ forallb isPrint prints = true
    /\ (forall logsOutput,
          CombinedOutput w t (dockerLogs containerID) = (logsOutput, None) ->
          strings.Contains logsOutput "No such container" = false ->
          prints = [Printf logsOutput []]).
Proof.
  unfold main_logs. unfold bind at 1. rewrite runCommandWithOutput_eq.
  fold (dockerLogs containerID).
  destruct (CombinedOutput w t (dockerLogs containerID)) as [out e].
  destruct (commandResult_eq out e) as [code ->]. cbv beta iota.
  destruct (isErr e || strings.Contains out "No such container") eqn:F.
  - eexists [_; _].
    unfold bind, printf, emit. rewrite <- !app_assoc.
    split; [reflexivity|]. split; [reflexivity|].
    intros lo E C. inversion E; subst. cbn [isErr orb] in F. congruence.
  - eexists [_].
    unfold printf, emit. rewrite <- !app_assoc.
    split; [reflexivity|]. split; [reflexivity|].
    intros lo E C. inversion E; subst. reflexivity.
Qed.

Lemma main_rm_spec containerID t :
  exists prints,
    main_rm w containerID t
    = (inl tt, t ++ Run (dockerRm containerID) :: prints)
    /\ forallb isPrint prints = true.
Proof.
  unfold main_rm. unfold bind at 1. rewrite runCommandWithOutput_eq.
  fold (dockerRm containerID).
  destruct (CombinedOutput w t (dockerRm containerID)) as [out e].
  destruct (commandResult_eq out e) as [code ->]. cbv beta iota.
  destruct (isErr e || strings.Contains out "Error").
  - eexists [_; _].
    unfold bind, printf, emit. rewrite <- !app_assoc.
    split; reflexivity.
  - exists []. split; reflexivity.
Qed.

End Steps.

(** ** [main] cut at its points *)

Section Cuts.

Variable w : World.

Lemma main_at_run args t :
  main w args t
  = bind (validateArgs args ;; main_run w args) (after_run w) t.
Proof.
  unfold main, after_run, after_wait, after_retry, after_exitCode, bind.
  destruct (validateArgs args t) as [[[]|h] t1]; [|reflexivity].
  destruct (main_run w args t1) as [[id|h] t2]; reflexivity.
Qed.

Lemma main_at_wait args t :
  main w args t
  = bind (until_wait w args) (fun p => after_wait w (fst p) (snd p)) t.
Proof.
  unfold main, until_wait, after_wait, after_retry, after_exitCode, bind, ret.
  destruct (validateArgs args t) as [[[]|h] t1]; [|reflexivity].
  destruct (main_run w args t1) as [[id|h] t2]; [|reflexivity].
  destruct (main_wait w id t2) as [[wr|h] t3]; reflexivity.
Qed.

Lemma main_at_retry args t :
  main w args t
  = bind (until_retry w args)
      (fun p => after_retry w (fst p) (fst (snd p)) (snd (snd p))) t.
Proof.
  unfold main, until_retry, until_wait, after_retry, after_exitCode, bind, ret.
  destruct (validateArgs args t) as [[[]|h] t1]; [|reflexivity].
  destruct (main_run w args t1) as [[id|h] t2]; [|reflexivity].
  destruct (main_wait w id t2) as [[wr|h] t3]; [|reflexivity].
  destruct (main_retry w id wr t3) as [[[wo we]|h] t4]; reflexivity.
Qed.

Lemma main_at_exitCode args t :
  main w args t
  = bind (until_exitCode w args)
      (fun p => after_exitCode w (fst p) (snd p)) t.
Proof.
  unfold main, until_exitCode, until_retry, until_wait, after_exitCode,
    bind, ret.
  destruct (validateArgs args t) as [[[]|h] t1]; [|reflexivity].
  destruct (main_run w args t1) as [[id|h] t2]; [|reflexivity].
  destruct (main_wait w id t2) as [[wr|h] t3]; [|reflexivity].
  destruct (main_retry w id wr t3) as [[[wo we]|h] t4]; [|reflexivity].
  destruct (main_exitCode wo we t4) as [[n|h] t5]; reflexivity.
Qed.

Lemma until_retry_at_wait args t :
  until_retry w args t
  = bind (until_wait w args)
      (fun p => resolved <- main_retry w (fst p) (snd p) ;;
                ret (fst p, resolved)) t.
Proof.
  unfold until_retry, bind.
  destruct (until_wait w args t) as [[[id wr]|h] t1]; reflexivity.
Qed.

Lemma until_exitCode_at_retry args t :
  until_exitCode w args t
  = bind (until_retry w args)
      (fun p => finalExitCode <- main_exitCode (fst (snd p)) (snd (snd p)) ;;
                ret (fst p, finalExitCode)) t.
Proof.
  unfold until_exitCode, bind.
  destruct (until_retry w args t) as [[[id [wo we]]|h] t1]; reflexivity.
Qed.

(** The run of the program, given how [main] ends: [main] always ends in
    a halt. *)
Lemma dockrun_halt args h t :
  main w args [] = (inr h, t) -> dockrun w args = (h, t).
Proof. unfold dockrun. intros ->. reflexivity. Qed.

(** *** From the exit code on *)

Lemma after_exitCode_spec containerID finalExitCode t :
  exists logPrints rmPrints,
    after_exitCode w containerID finalExitCode t
    = (inr (Exit finalExitCode),
       t ++ Run (dockerLogs containerID) :: logPrints
         ++ Run (dockerRm containerID) :: rmPrints)
    /\ forallb isPrint logPrints = true
    /\ forallb isPrint rmPrints = true
    /\ (forall logsOutput,
          CombinedOutput w t (dockerLogs containerID) = (logsOutput, None) ->
          strings.Contains logsOutput "No such container" = false ->
          logPrints = [Printf logsOutput []]).
Proof.
  unfold after_exitCode.
  destruct (main_logs_spec w containerID t) as (lp & EL & PL & VL).
  destruct (main_rm_spec w containerID
              (t ++ Run (dockerLogs containerID) :: lp)) as (rp & ER & PR).
  exists lp, rp.
  rewrite (bind_inl _ _ _ _ _ EL), (bind_inl _ _ _ _ _ ER).
  unfold exit. rewrite <- app_assoc. auto.
Qed.

Lemma auxEvent_print handle e : isPrint e = true -> auxEvent handle e = true.
Proof. destruct e; cbn [auxEvent isPrint]; congruence. Qed.

Lemma auxEvent_prints handle t :
  forallb isPrint t = true -> forallb (auxEvent handle) t = true.
Proof.
  intros P. apply forallb_forall. intros e He. apply auxEvent_print.
  exact (proj1 (forallb_forall _ _) P e He).
Qed.

Lemma auxEvent_relay handle t :
  forallb (relayEvent handle "") t = true ->
  forallb (auxEvent handle) t = true.
Proof.
  intros R. apply forallb_forall. intros e He.
  pose proof (proj1 (forallb_forall _ _) R e He) as Re. clear R He.
  destruct e as [argv| | |]; cbn [relayEvent auxEvent] in *; auto.
  destruct argv as [|d [|a [|h [|]]]]; auto.
  apply andb_true_iff in Re. destruct Re as [D A]. rewrite D. cbn [andb].
  apply orb_true_iff in A. destruct A as [A|A];
    [apply orb_true_iff in A; destruct A as [A|A]|];
    apply String.eqb_eq in A; subst a; reflexivity.
Qed.

Lemma auxEvent_onHandle handle t :
  forallb (auxEvent handle) t = true -> forallb (onHandle handle) t = true.
Proof.
  intros R. apply forallb_forall. intros e He.
  pose proof (proj1 (forallb_forall _ _) R e He) as Re. clear R He.
  destruct e as [argv| | |]; cbn [onHandle auxEvent] in *;
    auto; try discriminate.
  destruct argv as [|d [|a [|h [|]]]]; auto.
  apply andb_true_iff in Re. tauto.
Qed.

Lemma auxEvent_no_wait handle t :
  forallb (auxEvent handle) t = true ->
  timesRun (dockerWait handle) t = 0 /\ timesSpawned (dockerWait handle) t = 0.
Proof.
  unfold timesRun, timesSpawned.
  induction t as [|e t IH]; cbn [forallb filter]; [auto|].
  intros R. apply andb_true_iff in R. destruct R as [Re R].
  destruct (IH R) as [IH1 IH2].
  destruct e as [argv| | |]; cbn [auxEvent] in Re; auto; [|discriminate].
  split; [|exact IH2].
  destruct argv as [|d [|a [|h [|]]]]; try discriminate.
  apply andb_true_iff in Re. destruct Re as [_ A].
  rewrite argv_eqb_neq; [exact IH1|].
  unfold dockerWait. intros E. inversion E; subst. discriminate.
Qed.

Lemma auxEvent_tail handle (lp rp : Trace) :
  forallb isPrint lp = true -> forallb isPrint rp = true ->
  forallb (auxEvent handle)
    (Run (dockerLogs handle) :: lp ++ Run (dockerRm handle) :: rp) = true.
Proof.
  intros PL PR. cbn [forallb]. rewrite forallb_app. cbn [forallb].
  rewrite (auxEvent_prints handle lp PL), (auxEvent_prints handle rp PR).
  unfold dockerLogs, dockerRm. cbn [auxEvent].
  rewrite !String.eqb_refl. reflexivity.
Qed.

(** *** From the retry on *)

Lemma after_retry_spec containerID waitOutput waiterr t :
  exists rest,
    after_retry w containerID waitOutput waiterr t
    = (inr (Exit (match exitCodeOf waitOutput waiterr with
                  | Some finalExitCode => finalExitCode
                  | None => 1%Z
                  end)), t ++ rest)
    /\ forallb (auxEvent containerID) rest = true
    /\ (forall finalExitCode,
          exitCodeOf waitOutput waiterr = Some finalExitCode ->
          after_retry w containerID waitOutput waiterr t
          = after_exitCode w containerID finalExitCode t).
Proof.
  unfold after_retry.
  destruct (main_exitCode_spec waitOutput waiterr t) as (p & E & P).
  destruct (exitCodeOf waitOutput waiterr) as [n|].
  - destruct (after_exitCode_spec containerID n t) as (lp & rp & EA & PL & PR & _).
    eexists. rewrite (bind_inl _ _ _ _ _ E). split; [exact EA|].
    split; [apply auxEvent_tail; assumption|].
    intros n' N. inversion N; subst. reflexivity.
  - exists p. rewrite (bind_inr _ _ _ _ _ E). split; [reflexivity|].
    split; [apply auxEvent_prints; exact P | discriminate].
Qed.

(** *** From the wait result on *)

Lemma after_wait_spec containerID waitResult t :
  exists code rest,
    after_wait w containerID waitResult t = (inr (Exit code), t ++ rest)
    /\ timesRun (dockerWait containerID) rest
       = (if isErr (err waitResult) then 1 else 0)
    /\ timesSpawned (dockerWait containerID) rest = 0
    /\ forallb (onHandle containerID) rest = true.
Proof.
  unfold after_wait.
  pose proof (main_retry_spec w containerID waitResult t) as E.
  destruct (isErr (err waitResult)).
  - destruct (CombinedOutput w t (dockerWait containerID)) as [wo we].
    destruct (after_retry_spec containerID wo we
                (t ++ [Run (dockerWait containerID)])) as (rest & EA & A & _).
    destruct (auxEvent_no_wait _ _ A) as [N1 N2].
    eexists. exists (Run (dockerWait containerID) :: rest).
    rewrite (bind_inl _ _ _ _ _ E). cbv beta iota.
    rewrite EA, <- app_assoc. split; [reflexivity|].
    unfold timesRun, timesSpawned in *. cbn [filter forallb].
    rewrite argv_eqb_refl. cbn [List.length]. rewrite N1, N2.
    rewrite (auxEvent_onHandle _ _ A).
    unfold dockerWait. cbn [onHandle]. rewrite !String.eqb_refl. auto.
  - destruct (after_retry_spec containerID (output waitResult) None t)
      as (rest & EA & A & _).
    destruct (auxEvent_no_wait _ _ A) as [N1 N2].
    eexists. exists rest.
    rewrite (bind_inl _ _ _ _ _ E). cbv beta iota.
    rewrite EA. split; [reflexivity|].
    rewrite (auxEvent_onHandle _ _ A). auto.
Qed.

End Cuts.

(** ** Reaching the wait result *)

Lemma timesRun_dockerRun args containerID :
  argv_eqb (dockerRun args) (dockerWait containerID) = false.
Proof. apply argv_eqb_neq. unfold dockerRun, dockerWait. discriminate. Qed.

(** A run that gets the wait result has passed the validation, has had
    its container created, and has done since then nothing but start
    [docker wait] once and relay signals. *)
Lemma until_wait_inv (w : World) args containerID waitResult t :
  until_wait w args [] = (inl (containerID, waitResult), t) ->
  exists out relay,
    CombinedOutput w [] (dockerRun args) = (out, None)
    /\ containerID = strings.Trim out nl
    /\ Nat.ltb (String.length containerID) 4 = false
    /\ (output waitResult, err waitResult) = background w
    /\ completes (selects w) = true
    /\ t = Run (dockerRun args) :: Spawn (dockerWait containerID) :: relay
    /\ forallb (relayEvent containerID "") relay = true.
Proof.
  unfold until_wait. intros H.
  apply bind_inv in H. destruct H as ([] & t1 & V & H).
  apply bind_inv in H. destruct H as (id & t2 & L & H).
  apply bind_inv in H. destruct H as (wr & t3 & W & H).
  unfold ret in H. inversion H; subst id wr t3. clear H.
  destruct (validateArgs_spec args []) as (p & _ & VS).
  destruct (Nat.ltb (List.length args) 1 || existsb rejected args).
  { destruct VS as [VS _]. rewrite VS in V. discriminate. }
  destruct VS as [VS _]. rewrite VS in V. inversion V; subst t1. clear V VS.
  destruct (main_run_spec w args []) as (p' & LS & _ & LP).
  rewrite LS in L. clear LS.
  destruct (CombinedOutput w [] (dockerRun args)) as [out e].
  destruct e as [e|]; cbn [isErr orb] in L, LP; [discriminate|].
  destruct (Nat.ltb (String.length (strings.Trim out nl)) 4) eqn:N;
    [discriminate|].
  rewrite (LP eq_refl) in L. inversion L; subst containerID t2. clear L LP.
  destruct (main_wait_spec w (strings.Trim out nl) [Run (dockerRun args)])
    as (wr & relay & WS & B & R).
  rewrite WS in W.
  destruct (completes (selects w)); [|discriminate].
  inversion W; subst. exists out, relay. auto 10.
Qed.

(** The trace up to the wait result holds one [docker wait] started in
    the background and none run to its end. *)
Lemma until_wait_waits (w : World) args containerID waitResult t :
  until_wait w args [] = (inl (containerID, waitResult), t) ->
  timesRun (dockerWait containerID) t = 0
  /\ timesSpawned (dockerWait containerID) t = 1.
Proof.
  intros H. apply until_wait_inv in H.
  destruct H as (out & relay & _ & _ & _ & _ & _ & -> & R).
  destruct (auxEvent_no_wait _ _ (auxEvent_relay _ _ R)) as [N1 N2].
  unfold timesRun, timesSpawned in *. cbn [filter].
  rewrite timesRun_dockerRun, argv_eqb_refl. cbn [List.length].
  rewrite N1, N2. auto.
Qed.

(** C1: take a run in which the loop returns the result of the background
    [docker wait].  The whole run starts [docker wait] in the background
    once.  If that result carries an error, [docker wait] is run to its
    end exactly once in the whole run, on the same container, right after
    the loop, and its output and error are what [main] goes on with (the
    first output and error are dropped).  If the result carries no error,
    [docker wait] is never run to its end, and [main] goes on with the
    first output. *)
Theorem C1_wait_retry_once (w : World) args containerID waitResult t :
  until_wait w args [] = (inl (containerID, waitResult), t) ->
  timesSpawned (dockerWait containerID) (snd (dockrun w args)) = 1
  /\ if isErr (err waitResult)
     then until_retry w args []
          = (inl (containerID, CombinedOutput w t (dockerWait containerID)),
             t ++ [Run (dockerWait containerID)])
          /\ timesRun (dockerWait containerID) (snd (dockrun w args)) = 1
     else until_retry w args []
          = (inl (containerID, (output waitResult, None)), t)
          /\ timesRun (dockerWait containerID) (snd (dockrun w args)) = 0.
Proof.
  intros H.
  destruct (until_wait_waits w args containerID waitResult t H) as [N1 N2].
  destruct (after_wait_spec w containerID waitResult t)
    as (code & rest & EA & R1 & R2 & _).
  assert (D : dockrun w args = (Exit code, t ++ rest)).
  { apply dockrun_halt. rewrite main_at_wait.
    rewrite (bind_inl _ _ _ _ _ H). exact EA. }
  rewrite D. cbn [snd].
  rewrite timesRun_app, timesSpawned_app, N1, N2, R1, R2.
  split; [reflexivity|].
  rewrite until_retry_at_wait, (bind_inl _ _ _ _ _ H). cbn [fst snd].
  unfold bind. rewrite main_retry_spec.
  destruct (isErr (err waitResult)); split; reflexivity.
Qed.

Lemma C1_wait_retry_once_witness :
  let waitResult :=
    {| output := ""; exitCode := 1%Z; err := Some (ExitError 256%Z) |} in
  let t := snd (until_wait interrupted ["busybox"] []) in
  until_wait interrupted ["busybox"] [] = (inl (someID, waitResult), t)
  /\ timesSpawned (dockerWait someID) (snd (dockrun interrupted ["busybox"])) = 1
  /\ until_retry interrupted ["busybox"] []
     = (inl (someID, (("137" ++ nl)%string, None)), t ++ [Run (dockerWait someID)])
  /\ timesRun (dockerWait someID) (snd (dockrun interrupted ["busybox"])) = 1.
Proof.
  split; [reflexivity|].
  exact (C1_wait_retry_once interrupted ["busybox"] someID
           {| output := ""; exitCode := 1%Z; err := Some (ExitError 256%Z) |}
           (snd (until_wait interrupted ["busybox"] [])) eq_refl).
Defined.

Lemma C3_signal_relay_witness :
  exists relay,
    waitForResult interrupted someID (selects interrupted)
      {| output := ""; exitCode := 1%Z; err := Some (ExitError 256%Z) |} []
    = (inl {| output := ""; exitCode := 1%Z; err := Some (ExitError 256%Z) |},
       [] ++ relay)
    /\ invocations relay
       = [["docker"; "stop"; someID]; ["docker"; "kill"; someID]].
Proof.
  apply (C3_signal_relay interrupted someID (selects interrupted)
           {| output := ""; exitCode := 1%Z; err := Some (ExitError 256%Z) |} []).
  apply Forall_cons; [left; reflexivity|].
  apply Forall_cons; [right; reflexivity|].
  apply Forall_nil.
Defined.

(** ** The exit code *)

Lemma until_retry_inv (w : World) args containerID resolved t :
  until_retry w args [] = (inl (containerID, resolved), t) ->
  exists waitResult t1,
    until_wait w args [] = (inl (containerID, waitResult), t1)
    /\ main_retry w containerID waitResult t1 = (inl resolved, t).
Proof.
  rewrite until_retry_at_wait. intros H.
  apply bind_inv in H. destruct H as ([id wr] & t1 & U & H). cbn [fst snd] in H.
  apply bind_inv in H. destruct H as (r & t2 & R & H).
  unfold ret in H. inversion H; subst. eauto.
Qed.

Lemma dockrun_at_retry (w : World) args containerID waitOutput waiterr t :
  until_retry w args [] = (inl (containerID, (waitOutput, waiterr)), t) ->
  exists rest,
    dockrun w args
    = (Exit (match exitCodeOf waitOutput waiterr with
             | Some finalExitCode => finalExitCode
             | None => 1%Z
             end), t ++ rest)
    /\ forallb (auxEvent containerID) rest = true.
Proof.
  intros H.
  destruct (after_retry_spec w containerID waitOutput waiterr t)
    as (rest & EA & A & _).
  exists rest. split; [|exact A].
  apply dockrun_halt. rewrite main_at_retry, (bind_inl _ _ _ _ _ H). exact EA.
Qed.

Lemma until_exitCode_eq (w : World) args containerID waitOutput waiterr t :
  until_retry w args [] = (inl (containerID, (waitOutput, waiterr)), t) ->
  forall finalExitCode,
    exitCodeOf waitOutput waiterr = Some finalExitCode ->
    until_exitCode w args [] = (inl (containerID, finalExitCode), t).
Proof.
  intros H n N.
  rewrite until_exitCode_at_retry, (bind_inl _ _ _ _ _ H). cbn [fst snd].
  destruct (main_exitCode_spec waitOutput waiterr t) as (p & E & _).
  rewrite N in E. rewrite (bind_inl _ _ _ _ _ E). reflexivity.
Qed.

(** C2: take a run that reaches the end of the retry with the output
    [waitOutput] and the error [waiterr].  If there is an error, or the
    output contains ["Error"], the program exits with status 1.
    Otherwise the output, newlines trimmed, goes through [strconv.Atoi]:
    when that fails the program exits with status 1; when it gives a
    number, that number is [finalExitCode], and the program exits with
    it. *)
Theorem C2_exit_code_extraction (w : World) args containerID
    waitOutput waiterr t :
  until_retry w args [] = (inl (containerID, (waitOutput, waiterr)), t) ->
  (isErr waiterr = true \/ strings.Contains waitOutput "Error" = true ->
   fst (dockrun w args) = Exit 1%Z)
  /\ (isErr waiterr = false ->
      strings.Contains waitOutput "Error" = false ->
      match strconv.Atoi (strings.Trim waitOutput nl) with
      | None => fst (dockrun w args) = Exit 1%Z
      | Some finalExitCode =>
          until_exitCode w args [] = (inl (containerID, finalExitCode), t)
          /\ fst (dockrun w args) = Exit finalExitCode
      end).
Proof.
  intros H.
  destruct (dockrun_at_retry w args containerID waitOutput waiterr t H)
    as (rest & D & _).
  pose proof (until_exitCode_eq w args containerID waitOutput waiterr t H) as U.
  rewrite D. cbn [fst]. unfold exitCodeOf in *. split.
  - intros [F|F]; rewrite F; rewrite ?orb_true_r; reflexivity.
  - intros F1 F2. rewrite F1, F2 in *. cbn [orb] in *.
    destruct (strconv.Atoi (strings.Trim waitOutput nl)) as [n|]; auto.
Qed.

Lemma C2_exit_code_extraction_witness :
  let t := snd (until_retry interrupted ["busybox"] []) in
  until_retry interrupted ["busybox"] [] = (inl (someID, (("137" ++ nl)%string, None)), t)
  /\ until_exitCode interrupted ["busybox"] [] = (inl (someID, 137%Z), t)
  /\ fst (dockrun interrupted ["busybox"]) = Exit 137%Z.
Proof.
  split; [reflexivity|].
  exact (proj2 (C2_exit_code_extraction interrupted ["busybox"] someID
                  ("137" ++ nl)%string None
                  (snd (until_retry interrupted ["busybox"] [])) eq_refl)
           eq_refl eq_refl).
Defined.

(** ** Logs and removal *)

(** C6: take a run that has read [finalExitCode] from the wait output.
    Whatever [docker logs] and [docker rm] answer afterwards (the world
    is arbitrary: an error, a text with a failure marker, anything), the
    run goes on with [docker logs], then [docker rm] on the same
    container, with prints only in between and after, and exits with
    [finalExitCode]. *)
Theorem C6_cleanup_keeps_exit_code (w : World) args containerID
    finalExitCode t :
  until_exitCode w args [] = (inl (containerID, finalExitCode), t) ->
  exists logPrints rmPrints,
    dockrun w args
    = (Exit finalExitCode,
       t ++ Run (dockerLogs containerID) :: logPrints
         ++ Run (dockerRm containerID) :: rmPrints)
    /\ forallb isPrint logPrints = true
    /\ forallb isPrint rmPrints = true.
Proof.
  intros H.
  destruct (after_exitCode_spec w containerID finalExitCode t)
    as (lp & rp & EA & PL & PR & _).
  exists lp, rp. split; [|auto].
  apply dockrun_halt.
  rewrite main_at_exitCode, (bind_inl _ _ _ _ _ H). exact EA.
Qed.

Lemma C6_cleanup_keeps_exit_code_witness :
  let t := snd (until_exitCode vanished ["busybox"] []) in
  until_exitCode vanished ["busybox"] [] = (inl (someID, 3%Z), t)
  /\ CombinedOutput vanished t (dockerLogs someID)
     = (("Error: No such container: " ++ someID ++ nl)%string, None)
  /\ isErr (snd (CombinedOutput vanished t (dockerRm someID))) = true
  /\ exists logPrints rmPrints,
       dockrun vanished ["busybox"]
       = (Exit 3%Z,
          t ++ Run (dockerLogs someID) :: logPrints
            ++ Run (dockerRm someID) :: rmPrints)
       /\ forallb isPrint logPrints = true
       /\ forallb isPrint rmPrints = true.
Proof.
  split; [reflexivity|]. split; [reflexivity|]. split; [reflexivity|].
  exact (C6_cleanup_keeps_exit_code vanished ["busybox"] someID 3%Z
           (snd (until_exitCode vanished ["busybox"] [])) eq_refl).
Defined.

(** C7: take a run in which the wait outcome [main] goes on with is the
    output ["0"] and no error.  Then [finalExitCode] is 0, the program
    exits with 0, and the commands run after that point are [docker logs]
    and [docker rm], once each and in this order, on the container whose
    [docker wait] was started before. *)
Theorem C7_wait_zero (w : World) args containerID t :
  until_retry w args [] = (inl (containerID, ("0", None)), t) ->
  until_exitCode w args [] = (inl (containerID, 0%Z), t)
  /\ In (Spawn (dockerWait containerID)) t
  /\ exists rest,
       dockrun w args = (Exit 0%Z, t ++ rest)
       /\ invocations rest = [dockerLogs containerID; dockerRm containerID].
Proof.
  intros H.
  assert (U : until_exitCode w args [] = (inl (containerID, 0%Z), t)).
  { apply (until_exitCode_eq w args containerID "0" None t H). reflexivity. }
  split; [exact U|]. split.
  - apply until_retry_inv in H. destruct H as (wr & t1 & UW & R).
    apply until_wait_inv in UW.
    destruct UW as (out & relay & _ & _ & _ & _ & _ & -> & _).
    rewrite main_retry_spec in R.
    destruct (isErr (err wr)); inversion R; subst; simpl; auto.
  - destruct (after_exitCode_spec w containerID 0%Z t)
      as (lp & rp & EA & PL & PR & _).
    eexists. split.
    + apply dockrun_halt.
      rewrite main_at_exitCode, (bind_inl _ _ _ _ _ U). exact EA.
    + cbn [invocations]. rewrite invocations_app. cbn [invocations].
      rewrite (invocations_prints lp PL), (invocations_prints rp PR).
      reflexivity.
Qed.

Lemma C7_wait_zero_witness :
  let t := snd (until_retry bare ["busybox"] []) in
  until_retry bare ["busybox"] [] = (inl (someID, ("0", None)), t)
  /\ until_exitCode bare ["busybox"] [] = (inl (someID, 0%Z), t)
  /\ In (Spawn (dockerWait someID)) t
  /\ exists rest,
       dockrun bare ["busybox"] = (Exit 0%Z, t ++ rest)
       /\ invocations rest = [dockerLogs someID; dockerRm someID].
Proof.
  split; [reflexivity|].
  exact (C7_wait_zero bare ["busybox"] someID
           (snd (until_retry bare ["busybox"] [])) eq_refl).
Defined.

(** ** The exit status of the program *)

Lemma until_retry_halt (w : World) args t h t' :
  until_retry w args t = (inr h, t') -> h = Exit 1%Z \/ h = Blocked.
Proof.
  unfold until_retry, until_wait, bind, ret.
  destruct (validateArgs_spec args t) as (p & _ & VS).
  destruct (Nat.ltb (List.length args) 1 || existsb rejected args);
    destruct VS as [-> _]; [intros H; inversion H; auto|].
  destruct (main_run_spec w args t) as (p' & -> & _ & _).
  destruct (CombinedOutput w t (dockerRun args)) as [out e].
  destruct (isErr e || Nat.ltb (String.length (strings.Trim out nl)) 4);
    [intros H; inversion H; auto|].
  destruct (main_wait_spec w (strings.Trim out nl)
              (t ++ Run (dockerRun args) :: p')) as (wr & relay & -> & _ & _).
  destruct (completes (selects w)); [|intros H; inversion H; auto].
  rewrite main_retry_spec. destruct (isErr (err wr)); discriminate.
Qed.

Lemma Atoi_range s n :
  strconv.Atoi s = Some n -> (strconv.minInt <= n <= strconv.maxInt)%Z.
Proof.
  unfold strconv.Atoi. destruct s as [|c rest]; [discriminate|].
  destruct (if Ascii.eqb c "-" then (true, rest)
            else if Ascii.eqb c "+" then (false, rest)
            else (false, String c rest)) as [neg body].
  destruct body as [|c' body']; [discriminate|].
  destruct (strconv.digits 0 (String c' body')) as [m|]; [|discriminate].
  cbv zeta.
  destruct ((strconv.minInt <=? (if neg then - m else m))
            && ((if neg then - m else m) <=? strconv.maxInt))%Z eqn:R;
    [|discriminate].
  intros H. inversion H; subst.
  apply andb_true_iff in R. destruct R as [R1 R2].
  apply Z.leb_le in R1. apply Z.leb_le in R2. auto.
Qed.

(** The argument of [os.Exit]: when the program exits, it has called
    [os.Exit] with 1, or with the number that [strconv.Atoi] reads from
    the newline-trimmed output of the wait outcome (one with no error and
    without ["Error"] in it); that number is checked against no range. *)
Lemma exit_argument (w : World) args code :
  fst (dockrun w args) = Exit code ->
  code = 1%Z
  \/ exists containerID waitOutput t,
       until_retry w args [] = (inl (containerID, (waitOutput, None)), t)
       /\ strings.Contains waitOutput "Error" = false
       /\ strconv.Atoi (strings.Trim waitOutput nl) = Some code
       /\ (strconv.minInt <= code <= strconv.maxInt)%Z.
Proof.
  destruct (until_retry w args []) as [[[id [wo we]]|h] t] eqn:U.
  - destruct (dockrun_at_retry w args id wo we t U) as (rest & -> & _).
    cbn [fst]. unfold exitCodeOf.
    destruct we as [e|]; cbn [isErr orb].
    { intros H; inversion H; auto. }
    destruct (strings.Contains wo "Error") eqn:C.
    { intros H; inversion H; auto. }
    destruct (strconv.Atoi (strings.Trim wo nl)) as [n|] eqn:A.
    + intros H; inversion H; subst n. right.
      exists id, wo, t. repeat split; auto; apply (Atoi_range _ _ A).
    + intros H; inversion H; auto.
  - assert (D : dockrun w args = (h, t)).
    { apply dockrun_halt. rewrite main_at_retry.
      apply bind_inr. exact U. }
    rewrite D. cbn [fst]. intros ->.
    destruct (until_retry_halt w args [] _ _ U) as [H|H];
      inversion H; auto.
Qed.

Lemma processStatus_mod code : processStatus code = (code mod 256)%Z.
Proof.
  unfold processStatus. change 255%Z with (Z.ones 8).
  rewrite Z.land_ones by lia. reflexivity.
Qed.

Lemma processStatus_range code : (0 <= processStatus code <= 255)%Z.
Proof.
  rewrite processStatus_mod.
  pose proof (Z.mod_pos_bound code 256 ltac:(lia)). lia.
Qed.

Lemma processStatus_small code :
  (0 <= code <= 255)%Z -> processStatus code = code.
Proof.
  intros H. rewrite processStatus_mod. apply Z.mod_small. lia.
Qed.

(** C4, as the claim has it, fails: when [docker wait] prints 300 without
    error, [finalExitCode] is 300, which is not within 0..255, and the
    program calls [os.Exit(300)]; the process then exits with the status
    44, which is within 0..255 but is neither 1 nor the exit code that
    the wait told. *)
Lemma C4_status_44_for_300 :
  background large = (("300" ++ nl)%string, None)
  /\ until_exitCode large ["busybox"] []
     = (inl (someID, 300%Z), snd (until_exitCode large ["busybox"] []))
  /\ fst (dockrun large ["busybox"]) = Exit 300%Z
  /\ processStatus 300 = 44%Z
  /\ ~ (0 <= 300 <= 255)%Z
  /\ ~ (processStatus 300 = 1 \/ processStatus 300 = 300)%Z.
Proof.
  split; [reflexivity|]. split; [reflexivity|]. split; [reflexivity|].
  split; [reflexivity|]. split; [lia|]. vm_compute. intros [H|H]; discriminate H.
Qed.

(** C4, amended: when the program exits, the exit status of the process
    is within 0..255.  The program has called [os.Exit] either with 1,
    and the status is 1, or with [finalExitCode], the number that
    [strconv.Atoi] reads from the newline-trimmed output of the wait
    outcome (one with no error and without ["Error"] in it), checked
    against no range; the status is then that number modulo 256, so it
    is the number itself whenever the wait tells one within 0..255. *)
Theorem C4_process_exit_status (w : World) args code :
  fst (dockrun w args) = Exit code ->
  (0 <= processStatus code <= 255)%Z
  /\ ((code = 1%Z /\ processStatus code = 1%Z)
      \/ exists containerID waitOutput t,
           until_retry w args [] = (inl (containerID, (waitOutput, None)), t)
           /\ strings.Contains waitOutput "Error" = false
           /\ strconv.Atoi (strings.Trim waitOutput nl) = Some code
           /\ until_exitCode w args [] = (inl (containerID, code), t)
           /\ processStatus code = (code mod 256)%Z
           /\ ((0 <= code <= 255)%Z -> processStatus code = code)).
Proof.
  intros H. split; [apply processStatus_range|].
  destruct (exit_argument w args code H)
    as [->|(id & wo & t & U & C & A & _)].
  - left. split; reflexivity.
  - right. exists id, wo, t.
    split; [exact U|]. split; [exact C|]. split; [exact A|]. split.
    + apply (until_exitCode_eq w args id wo None t U).
      unfold exitCodeOf. cbn [isErr orb]. rewrite C. exact A.
    + split; [apply processStatus_mod | apply processStatus_small].
Qed.

Lemma C4_process_exit_status_witness :
  fst (dockrun large ["busybox"]) = Exit 300%Z
  /\ (0 <= processStatus 300 <= 255)%Z
  /\ ((300%Z = 1%Z /\ processStatus 300 = 1%Z)
      \/ exists containerID waitOutput t,
           until_retry large ["busybox"] []
           = (inl (containerID, (waitOutput, None)), t)
           /\ strings.Contains waitOutput "Error" = false
           /\ strconv.Atoi (strings.Trim waitOutput nl) = Some 300%Z
           /\ until_exitCode large ["busybox"] []
              = (inl (containerID, 300%Z), t)
           /\ processStatus 300 = (300 mod 256)%Z
           /\ ((0 <= 300 <= 255)%Z -> processStatus 300 = 300%Z)).
Proof.
  split; [reflexivity|].
  apply (C4_process_exit_status large ["busybox"] 300%Z). reflexivity.
Defined.

(** ** The handle *)

Lemma after_run_spec (w : World) containerID t :
  exists h rest,
    after_run w containerID t = (inr h, t ++ rest)
    /\ forallb (onHandle containerID) rest = true.
Proof.
  unfold after_run.
  destruct (main_wait_spec w containerID t) as (wr & relay & E & _ & R).
  assert (S : onHandle containerID (Spawn (dockerWait containerID)) = true).
  { unfold dockerWait. cbn [onHandle]. rewrite !String.eqb_refl. reflexivity. }
  pose proof (auxEvent_onHandle _ _ (auxEvent_relay _ _ R)) as O.
  destruct (completes (selects w)).
  - destruct (after_wait_spec w containerID wr
                (t ++ Spawn (dockerWait containerID) :: relay))
      as (code & rest & EA & _ & _ & O').
    exists (Exit code), (Spawn (dockerWait containerID) :: relay ++ rest).
    rewrite (bind_inl _ _ _ _ _ E), EA, <- app_assoc. split; [reflexivity|].
    cbn [forallb]. rewrite forallb_app, S, O, O'. reflexivity.
  - exists Blocked, (Spawn (dockerWait containerID) :: relay).
    rewrite (bind_inr _ _ _ _ _ E). split; [reflexivity|].
    cbn [forallb]. rewrite S, O. reflexivity.
Qed.

(** C8, as the claim has it, fails: [strings.Trim] takes newlines off
    both ends.  When [docker run] prints an empty line first, the handle
    is the identifier alone, and not the output less its trailing
    newline. *)
Lemma C8_leading_newline :
  let out := (nl ++ someID ++ nl)%string in
  CombinedOutput framed [] (dockerRun ["busybox"]) = (out, None)
  /\ 4 <= String.length (strings.Trim out nl)
  /\ 4 <= String.length (trimTrailingNewline out)
  /\ main_run framed ["busybox"] []
     = (inl someID, [Run (dockerRun ["busybox"])])
  /\ trimTrailingNewline out = (nl ++ someID)%string
  /\ someID <> trimTrailingNewline out.
Proof.
  cbv zeta. split; [reflexivity|].
  split; [vm_compute; lia|]. split; [vm_compute; lia|].
  split; [reflexivity|]. split; [reflexivity|].
  vm_compute. discriminate.
Qed.

(** C8, amended: when the arguments pass the validation, [docker run]
    comes back without error, and its output, all newlines at both ends
    taken off, has at least 4 characters, then the handle is exactly that
    trimmed output, and every command of the rest of the run is
    [docker <verb> <handle>] with this very handle. *)
Theorem C8_handle_is_trimmed_output (w : World) args out :
  validateArgs args [] = (inl tt, []) ->
  CombinedOutput w [] (dockerRun args) = (out, None) ->
  4 <= String.length (strings.Trim out nl) ->
  main_run w args [] = (inl (strings.Trim out nl), [Run (dockerRun args)])
  /\ exists rest,
       snd (dockrun w args) = Run (dockerRun args) :: rest
       /\ forallb (onHandle (strings.Trim out nl)) rest = true.
Proof.
  intros V C L.
  destruct (main_run_spec w args []) as (p & E & _ & P).
  rewrite C in E, P. cbn [isErr orb] in E, P.
  apply Nat.ltb_ge in L. rewrite L in E, P.
  rewrite (P eq_refl) in E. cbn [app] in E.
  split; [exact E|].
  destruct (after_run_spec w (strings.Trim out nl) [Run (dockerRun args)])
    as (h & rest & EA & O).
  exists rest. split; [|exact O].
  rewrite (dockrun_halt w args h ([Run (dockerRun args)] ++ rest));
    [reflexivity|].
  rewrite main_at_run.
  rewrite (bind_inl _ (after_run w) [] (strings.Trim out nl)
             [Run (dockerRun args)]); [exact EA|].
  rewrite (bind_inl _ _ _ _ _ V). exact E.
Qed.

Lemma C8_handle_is_trimmed_output_witness :
  main_run framed ["busybox"] [] = (inl someID, [Run (dockerRun ["busybox"])])
  /\ exists rest,
       snd (dockrun framed ["busybox"]) = Run (dockerRun ["busybox"]) :: rest
       /\ forallb (onHandle someID) rest = true.
Proof.
  apply (C8_handle_is_trimmed_output framed ["busybox"]
           (nl ++ someID ++ nl)%string).
  - reflexivity.
  - reflexivity.
  - vm_compute. lia.
Defined.

(** ** Printing the logs *)

Lemma Sprintf0_plain format :
  strings.inCutset "%" format = false -> fmt.Sprintf0 format = Some format.
Proof.
  induction format as [|c format IH]; [reflexivity|].
  cbn [strings.inCutset fmt.Sprintf0].
  rewrite Ascii.eqb_sym. destruct (Ascii.eqb c "%"); [discriminate|].
  cbn [orb]. intros H. rewrite (IH H). reflexivity.
Qed.

(** C5, at a failing input: the logs are the text ["progress: 100%"],
    read without error and without the marker.  The program hands them
    to [Printf] as the format, with no operand, and what is written ends
    in ["%!(NOVERB)"]: it is not the text of the logs. *)
Theorem C5_logs_as_format :
  let logsOutput := "progress: 100%" in
  dockrun percent ["busybox"]
  = (Exit 0%Z,
     [Run (dockerRun ["busybox"]); Spawn (dockerWait someID);
      Run (dockerLogs someID); Printf logsOutput [];
      Run (dockerRm someID)])
  /\ CombinedOutput percent
       [Run (dockerRun ["busybox"]); Spawn (dockerWait someID)]
       (dockerLogs someID) = (logsOutput, None)
  /\ strings.Contains logsOutput "No such container" = false
  /\ fmt.Sprintf0 logsOutput = Some "progress: 100%!(NOVERB)"
  /\ fmt.Sprintf0 logsOutput <> Some logsOutput.
Proof.
  cbv zeta. repeat split; try reflexivity.
  vm_compute. discriminate.
Qed.

(** In every run that reads its logs without error and without the
    marker, the logs are the format of one [Printf] with no operand,
    between [docker logs] and [docker rm]; when they hold no percent
    sign, what is written is the logs unchanged. *)
Lemma logs_printed_as_format (w : World) args containerID finalExitCode t
    logsOutput :
  until_exitCode w args [] = (inl (containerID, finalExitCode), t) ->
  CombinedOutput w t (dockerLogs containerID) = (logsOutput, None) ->
  strings.Contains logsOutput "No such container" = false ->
  (exists rmPrints,
     dockrun w args
     = (Exit finalExitCode,
        t ++ Run (dockerLogs containerID) :: Printf logsOutput []
          :: Run (dockerRm containerID) :: rmPrints))
  /\ (strings.inCutset "%" logsOutput = false ->
      fmt.Sprintf0 logsOutput = Some logsOutput).
Proof.
  intros H C M. split; [|apply Sprintf0_plain].
  destruct (after_exitCode_spec w containerID finalExitCode t)
    as (lp & rp & EA & _ & _ & VL).
  rewrite (VL logsOutput C M) in EA. exists rp.
  apply dockrun_halt.
  rewrite main_at_exitCode, (bind_inl _ _ _ _ _ H). exact EA.
Qed.

(** * Further properties of the program *)

(** ** Arguments *)

Lemma accepted_args args :
  args <> [] -> ~ In "-i" args -> ~ In "-a" args ->
  Nat.ltb (List.length args) 1 || existsb rejected args = false.
Proof.
  intros N I A. destruct args as [|val args]; [congruence|].
  change (Nat.ltb (List.length (val :: args)) 1) with false. cbn [orb].
  destruct (existsb rejected (val :: args)) eqn:R; [|reflexivity].
  apply existsb_exists in R. destruct R as (x & Hx & R).
  unfold rejected in R. apply orb_true_iff in R.
  destruct R as [R|R]; apply String.eqb_eq in R; subst x; contradiction.
Qed.

(** Arguments that are not empty and hold neither ["-i"] nor ["-a"] pass
    [validateArgs] without a print, and the first thing the program does
    is to run [docker run -d] followed by those arguments, unchanged and
    in order. *)
Theorem arguments_pass_through (w : World) args :
  args <> [] -> ~ In "-i" args -> ~ In "-a" args ->
  (forall t, validateArgs args t = (inl tt, t))
  /\ exists rest,
       snd (dockrun w args) = Run ("docker" :: "run" :: "-d" :: args) :: rest.
Proof.
  intros N I A. pose proof (accepted_args args N I A) as OK.
  assert (V : forall t, validateArgs args t = (inl tt, t)).
  { intros t. destruct (validateArgs_spec args t) as (p & _ & VS).
    rewrite OK in VS. exact (proj1 VS). }
  split; [exact V|].
  fold (dockerRun args).
  destruct (main_run_spec w args []) as (p & E & _ & _). cbn [app] in E.
  destruct (CombinedOutput w [] (dockerRun args)) as [out e].
  destruct (isErr e || Nat.ltb (String.length (strings.Trim out nl)) 4).
  - exists p.
    rewrite (dockrun_halt w args (Exit 1%Z) (Run (dockerRun args) :: p));
      [reflexivity|].
    rewrite main_at_run. apply bind_inr.
    rewrite (bind_inl _ _ _ _ _ (V [])). exact E.
  - destruct (after_run_spec w (strings.Trim out nl)
                (Run (dockerRun args) :: p)) as (h & rest & EA & _).
    exists (p ++ rest).
    rewrite (dockrun_halt w args h ((Run (dockerRun args) :: p) ++ rest));
      [reflexivity|].
    rewrite main_at_run.
    rewrite (bind_inl _ (after_run w) [] (strings.Trim out nl)
               (Run (dockerRun args) :: p)); [exact EA|].
    rewrite (bind_inl _ _ _ _ _ (V [])). exact E.
Qed.

Lemma arguments_pass_through_witness :
  (forall t, validateArgs ["--rm"; "busybox"; "true"] t = (inl tt, t))
  /\ exists rest,
       snd (dockrun calm ["--rm"; "busybox"; "true"])
       = Run ["docker"; "run"; "-d"; "--rm"; "busybox"; "true"] :: rest.
Proof.
  apply (arguments_pass_through calm ["--rm"; "busybox"; "true"]).
  - discriminate.
  - intros [H|[H|[H|[]]]]; discriminate H.
  - intros [H|[H|[H|[]]]]; discriminate H.
Defined.

Lemma validateArgs_loop_count args : forall failed t,
  exists prints,
    validateArgs_loop args failed t
    = (inl (failed || existsb rejected args), t ++ prints)
    /\ forallb isPrint prints = true
    /\ List.length prints = List.length (filter rejected args).
Proof.
  induction args as [|val args IH]; intros failed t.
  - exists []. cbn. rewrite app_nil_r, orb_false_r. auto.
  - cbn [validateArgs_loop existsb filter]. unfold rejected at 1 3.
    unfold bind, println, printf, emit, ret.
    destruct (val =? "-i") eqn:Hi.
    + assert (Ha : (val =? "-a") = false).
      { apply String.eqb_eq in Hi. subst val. reflexivity. }
      rewrite Ha. cbn [orb].
      destruct (IH true (t ++ [Println "ERROR: dockrun doesn't support -i"]))
        as (p & E & F & L).
      exists (Println "ERROR: dockrun doesn't support -i" :: p).
      rewrite E, orb_true_r, <- app_assoc. cbn [forallb isPrint andb List.length].
      rewrite L. auto.
    + destruct (val =? "-a") eqn:Ha; cbn [orb].
      * destruct (IH true (t ++ [Printf "ERROR: dockrun doesn't support -a" []]))
          as (p & E & F & L).
        exists (Printf "ERROR: dockrun doesn't support -a" [] :: p).
        rewrite E, orb_true_r, <- app_assoc.
        cbn [forallb isPrint andb List.length]. rewrite L. auto.
      * destruct (IH failed t) as (p & E & F & L).
        exists p. rewrite E. auto.
Qed.

(** [validateArgs] does not stop at the first offending argument: for a
    non-empty argument vector it prints one message for each argument
    that is ["-i"] or ["-a"], and only then exits with status 1 (or
    returns, when there was none). *)
Theorem validateArgs_reports_each (args : list string) t :
  args <> [] ->
  exists prints,
    validateArgs args t
    = ((if existsb rejected args then inr (Exit 1%Z) else inl tt), t ++ prints)
    /\ forallb isPrint prints = true
    /\ List.length prints = List.length (filter rejected args).
Proof.
  intros N. destruct args as [|val args]; [congruence|].
  destruct (validateArgs_loop_count (val :: args) false t) as (p & E & F & L).
  exists p. split; [|auto].
  change (validateArgs (val :: args) t)
    with (bind (validateArgs_loop (val :: args) false)
            (fun failed => if failed then exit 1%Z else ret tt) t).
  rewrite (bind_inl _ _ _ _ _ E). rewrite orb_false_l.
  destruct (existsb rejected (val :: args)); reflexivity.
Qed.

Lemma validateArgs_reports_each_witness :
  exists prints,
    validateArgs ["-i"; "busybox"; "-a"; "-i"] []
    = (inr (Exit 1%Z), [] ++ prints)
    /\ forallb isPrint prints = true
    /\ List.length prints = 3.
Proof.
  apply (validateArgs_reports_each ["-i"; "busybox"; "-a"; "-i"] []).
  discriminate.
Defined.

(** ** Creating the container *)

(** When the arguments pass the validation and [docker run] comes back
    with an error, the program prints the output and the exit code
    (the exit status of docker, or 127 when there is none to read) and
    exits with status 1; [docker run] is the only command of the run. *)
Theorem docker_run_error_is_fatal (w : World) args out e :
  validateArgs args [] = (inl tt, []) ->
  CombinedOutput w [] (dockerRun args) = (out, Some e) ->
  dockrun w args
  = (Exit 1%Z,
     [Run (dockerRun args);
      Printf "docker run: %s" [fmt.OString out];
      Printf ("ERROR docker exited with exit code: %d" ++ nl)
             [fmt.OInt (match e with
                        | ExitError sys => syscall.ExitStatus sys
                        | errorString _ => 127%Z
                        end)]]).
Proof.
  intros V C. apply dockrun_halt. unfold main.
  rewrite (bind_inl _ _ _ _ _ V). apply bind_inr.
  unfold main_run. cbn zeta.
  change ("docker" :: ["run"; "-d"] ++ args) with (dockerRun args).
  unfold bind at 1. rewrite runCommandWithOutput_eq, C.
  destruct e as [sys|msg]; reflexivity.
Qed.

Lemma docker_run_error_is_fatal_witness :
  dockrun refused ["nosuchimage"]
  = (Exit 1%Z,
     [Run (dockerRun ["nosuchimage"]);
      Printf "docker run: %s" [fmt.OString ("Unable to find image" ++ nl)];
      Printf ("ERROR docker exited with exit code: %d" ++ nl)
             [fmt.OInt 125%Z]]).
Proof.
  exact (docker_run_error_is_fatal refused ["nosuchimage"]
           ("Unable to find image" ++ nl)%string
           (ExitError (Z.shiftl 125 8)) eq_refl eq_refl).
Defined.

(** When [docker run] comes back without error but its output, newlines
    trimmed, has fewer than 4 characters, the program prints one message
    and exits with status 1: no [docker wait], [docker logs] or
    [docker rm] is run or started. *)
Theorem short_container_id_is_fatal (w : World) args out :
  validateArgs args [] = (inl tt, []) ->
  CombinedOutput w [] (dockerRun args) = (out, None) ->
  String.length (strings.Trim out nl) < 4 ->
  dockrun w args
  = (Exit 1%Z,
     [Run (dockerRun args);
      Printf "ERROR: docker container ID is too small, possibly invalid" []]).
Proof.
  intros V C L. apply dockrun_halt. unfold main.
  rewrite (bind_inl _ _ _ _ _ V). apply bind_inr.
  unfold main_run. cbn zeta.
  change ("docker" :: ["run"; "-d"] ++ args) with (dockerRun args).
  unfold bind at 1. rewrite runCommandWithOutput_eq, C.
  cbn [commandResult isErr]. unfold bind at 1. unfold ret at 1.
  apply Nat.ltb_lt in L. rewrite L. reflexivity.
Qed.

Lemma short_container_id_is_fatal_witness :
  dockrun terse ["busybox"]
  = (Exit 1%Z,
     [Run (dockerRun ["busybox"]);
      Printf "ERROR: docker container ID is too small, possibly invalid" []]).
Proof.
  apply (short_container_id_is_fatal terse ["busybox"] ("ab" ++ nl)%string).
  - reflexivity.
  - reflexivity.
  - vm_compute. lia.
Defined.

(** ** Signals of any kind *)

Lemma relayCommand_of_relayEvent handle relay :
  forallb (relayEvent handle "") relay = true ->
  Forall (relayCommand handle) (invocations relay).
Proof.
  induction relay as [|e relay IH]; cbn [forallb invocations];
    [constructor|].
  intros R. apply andb_true_iff in R. destruct R as [Re R].
  destruct e as [argv| | |]; cbn [relayEvent] in Re; auto; [|discriminate].
  constructor; [|auto].
  destruct argv as [|d [|a [|h [|]]]]; try discriminate.
  apply andb_true_iff in Re. destruct Re as [Re A].
  apply andb_true_iff in Re. destruct Re as [D H].
  apply String.eqb_eq in D. apply String.eqb_eq in H. subst d h.
  exists a. split; [reflexivity|].
  apply orb_true_iff in A. destruct A as [A|A];
    [apply orb_true_iff in A; destruct A as [A|A]|];
    apply String.eqb_eq in A; auto.
Qed.

Lemma relay_counts (w : World) containerID waitCmd signals :
  forall action t,
    exists relay,
      waitForResult_loop w containerID action signals waitCmd t
      = ((if completes signals then inl waitCmd else inr Blocked), t ++ relay)
      /\ forallb (relayEvent containerID action) relay = true
      /\ List.length (invocations relay)
         = List.length (signalsBefore signals).
Proof.
  induction signals as [|[sig|] signals IH]; intros action t.
  - exists []. rewrite app_nil_r. auto.
  - destruct (waitForResult_loop_signal w containerID waitCmd action sig
                signals t) as (prints & action' & E & P & A).
    destruct (IH action' (t ++ received sig
                            :: Run ["docker"; action'; containerID] :: prints))
      as (relay & E' & R & L).
    exists ((received sig :: Run ["docker"; action'; containerID] :: prints)
            ++ relay).
    assert (HA : action' = "stop" \/ action' = "kill" \/ action' = action).
    { rewrite A. destruct (sig =? os.Interrupt)%Z; auto.
      destruct (sig =? os.Kill)%Z; auto. }
    split; [rewrite E, E', app_assoc; reflexivity|]. split.
    + rewrite forallb_app. apply andb_true_iff. split.
      * cbn [forallb]. rewrite relayEvent_run by exact HA.
        cbn [received relayEvent andb].
        apply forallb_forall. intros e He. apply relayEvent_print.
        exact (proj1 (forallb_forall _ _) P e He).
      * apply forallb_forall. intros e He.
        apply (relayEvent_weaken containerID action action' e HA).
        exact (proj1 (forallb_forall _ _) R e He).
    + rewrite invocations_app. cbn [invocations received signalsBefore].
      rewrite (invocations_prints prints P).
      cbn [List.length app]. rewrite L. reflexivity.
  - exists []. rewrite app_nil_r. auto.
Qed.

(** Whatever the signals are (also ones the [switch] has no case for),
    [waitForResult] runs exactly one command per signal received before
    the wait result, each of them docker with the verb [stop], [kill] or
    the empty verb on the container. *)
Theorem relay_one_command_per_signal (w : World) containerID signals
    waitCmd t :
  exists relay,
    waitForResult w containerID signals waitCmd t
    = ((if completes signals then inl waitCmd else inr Blocked), t ++ relay)
    /\ List.length (invocations relay) = List.length (signalsBefore signals)
    /\ Forall (relayCommand containerID) (invocations relay).
Proof.
  destruct (relay_counts w containerID waitCmd signals "" t)
    as (relay & E & R & L).
  exists relay. split; [exact E|]. split; [exact L|].
  apply relayCommand_of_relayEvent. exact R.
Qed.

(** A signal that is neither the interrupt nor the kill gets no verb of
    its own: the loop runs docker with the verb of the signal before it,
    and with the empty verb when it is the first signal. *)
Theorem unmapped_signal_repeats_verb (w : World) containerID waitCmd t
    (first sig : os.Signal) :
  termination first -> unmapped sig ->
  (exists relay,
     waitForResult w containerID [recvSignal sig; recvWait] waitCmd t
     = (inl waitCmd, t ++ relay)
     /\ invocations relay = [["docker"; ""; containerID]])
  /\ (exists relay,
        waitForResult w containerID
          [recvSignal first; recvSignal sig; recvWait] waitCmd t
        = (inl waitCmd, t ++ relay)
        /\ invocations relay
           = [["docker"; verbOf first; containerID];
              ["docker"; verbOf first; containerID]]).
Proof.
  intros T [U1 U2]. unfold waitForResult.
  apply Z.eqb_neq in U1. apply Z.eqb_neq in U2.
  split.
  - destruct (waitForResult_loop_signal w containerID waitCmd "" sig
                [recvWait] t) as (p & a & E & P & A).
    rewrite U1, U2 in A. subst a.
    eexists. rewrite E. split; [reflexivity|].
    cbn [invocations received]. rewrite (invocations_prints p P). reflexivity.
  - destruct (waitForResult_loop_signal w containerID waitCmd "" first
                [recvSignal sig; recvWait] t) as (p & a & E & P & A).
    assert (HA : a = verbOf first).
    { rewrite A. unfold verbOf. destruct T as [-> | ->]; reflexivity. }
    clear A. subst a.
    destruct (waitForResult_loop_signal w containerID waitCmd (verbOf first)
                sig [recvWait]
                (t ++ received first
                   :: Run ["docker"; verbOf first; containerID] :: p))
      as (p' & a' & E' & P' & A').
    rewrite U1, U2 in A'. subst a'.
    exists ((received first :: Run ["docker"; verbOf first; containerID] :: p)
            ++ received sig :: Run ["docker"; verbOf first; containerID] :: p').
    rewrite E, E'. cbn [waitForResult_loop]. unfold ret.
    rewrite <- app_assoc. split; [reflexivity|].
    rewrite invocations_app. cbn [invocations received].
    rewrite (invocations_prints p P), (invocations_prints p' P').
    reflexivity.
Qed.

Lemma unmapped_signal_repeats_verb_witness :
  (exists relay,
     waitForResult calm someID [recvSignal 15%Z; recvWait]
       {| output := "0"; exitCode := 0%Z; err := None |} []
     = (inl {| output := "0"; exitCode := 0%Z; err := None |}, [] ++ relay)
     /\ invocations relay = [["docker"; ""; someID]])
  /\ (exists relay,
        waitForResult calm someID
          [recvSignal os.Interrupt; recvSignal 15%Z; recvWait]
          {| output := "0"; exitCode := 0%Z; err := None |} []
        = (inl {| output := "0"; exitCode := 0%Z; err := None |}, [] ++ relay)
        /\ invocations relay
           = [["docker"; "stop"; someID]; ["docker"; "stop"; someID]]).
Proof.
  apply (unmapped_signal_repeats_verb calm someID
           {| output := "0"; exitCode := 0%Z; err := None |} []
           os.Interrupt 15%Z).
  - left; reflexivity.
  - split; discriminate.
Defined.

(** ** A wait that never ends *)

(** No timeout: when the container was created and the wait channel is
    never received from, the program never exits.  All it has done is
    [docker run], [docker wait] in the background, and one relay command
    per signal; neither [docker logs] nor [docker rm] is run. *)
Theorem no_timeout_on_wait (w : World) args out :
  validateArgs args [] = (inl tt, []) ->
  CombinedOutput w [] (dockerRun args) = (out, None) ->
  4 <= String.length (strings.Trim out nl) ->
  completes (selects w) = false ->
  exists relay,
    dockrun w args
    = (Blocked,
       Run (dockerRun args) :: Spawn (dockerWait (strings.Trim out nl))
         :: relay)
    /\ List.length (invocations relay)
       = List.length (signalsBefore (selects w))
    /\ Forall (relayCommand (strings.Trim out nl)) (invocations relay).
Proof.
  intros V C L B.
  destruct (main_run_spec w args []) as (p & E & _ & P).
  rewrite C in E, P. cbn [isErr orb] in E, P.
  apply Nat.ltb_ge in L. rewrite L in E, P.
  rewrite (P eq_refl) in E. cbn [app] in E.
  set (containerID := strings.Trim out nl) in *.
  destruct (runCommandSendResult_spec w (dockerWait containerID)
              [Run (dockerRun args)]) as (wr & ES & _).
  destruct (relay_counts w containerID wr (selects w) ""
              ([Run (dockerRun args)] ++ [Spawn (dockerWait containerID)]))
    as (relay & ER & R & N).
  rewrite B in ER.
  exists relay. split; [|split; [exact N|]].
  - apply dockrun_halt. unfold main.
    rewrite (bind_inl _ _ _ _ _ V), (bind_inl _ _ _ _ _ E).
    apply bind_inr. unfold main_wait.
    rewrite (bind_inl _ _ _ _ _ ES). exact ER.
  - apply relayCommand_of_relayEvent. exact R.
Qed.

Lemma no_timeout_on_wait_witness :
  exists relay,
    dockrun hung ["busybox"]
    = (Blocked,
       Run (dockerRun ["busybox"]) :: Spawn (dockerWait someID) :: relay)
    /\ List.length (invocations relay) = 1
    /\ Forall (relayCommand someID) (invocations relay).
Proof.
  apply (no_timeout_on_wait hung ["busybox"] (someID ++ nl)%string).
  - reflexivity.
  - reflexivity.
  - vm_compute. lia.
  - reflexivity.
Defined.

(** ** A wait that fails, a retry that succeeds *)

Lemma main_exitCode_fails waitOutput waiterr t :
  exitCodeOf waitOutput waiterr = None ->
  exists prints,
    main_exitCode waitOutput waiterr t = (inr (Exit 1%Z), t ++ prints)
    /\ forallb isPrint prints = true
    /\ prints <> [].
Proof.
  unfold main_exitCode, exitCodeOf.
  destruct (isErr waiterr || strings.Contains waitOutput "Error").
  - intros _. eexists [_; _]. split.
    { unfold bind, printf, emit, exit. rewrite <- !app_assoc. reflexivity. }
    split; [reflexivity | discriminate].
  - unfold bind at 1. unfold ret at 1. cbn zeta. intros ->.
    eexists [_; _]. split.
    { unfold bind, println, printf, emit, exit.
      rewrite <- !app_assoc. reflexivity. }
    split; [reflexivity | discriminate].
Qed.

(** When the wait outcome [main] goes on with has an error, or has
    ["Error"] in its output, or its trimmed output is no number, the
    program prints and exits with status 1 at once: after that point it
    runs no command, so the logs are not read and the container is not
    removed. *)
Theorem failed_wait_leaves_container (w : World) args containerID
    waitOutput waiterr t :
  until_retry w args [] = (inl (containerID, (waitOutput, waiterr)), t) ->
  isErr waiterr = true
  \/ strings.Contains waitOutput "Error" = true
  \/ strconv.Atoi (strings.Trim waitOutput nl) = None ->
  exists prints,
    dockrun w args = (Exit 1%Z, t ++ prints)
    /\ prints <> []
    /\ forallb isPrint prints = true
    /\ invocations prints = [].
Proof.
  intros H F.
  assert (N : exitCodeOf waitOutput waiterr = None).
  { unfold exitCodeOf. destruct F as [F|[F|F]].
    - rewrite F. reflexivity.
    - rewrite F, orb_true_r. reflexivity.
    - rewrite F. destruct (isErr waiterr || _); reflexivity. }
  destruct (main_exitCode_fails waitOutput waiterr t N) as (p & E & P & NE).
  exists p. split; [|auto using invocations_prints].
  apply dockrun_halt. rewrite main_at_retry, (bind_inl _ _ _ _ _ H).
  cbn [fst snd]. unfold after_retry. apply bind_inr. exact E.
Qed.

Lemma failed_wait_leaves_container_witness :
  exists prints,
    dockrun garbled ["busybox"]
    = (Exit 1%Z, snd (until_retry garbled ["busybox"] []) ++ prints)
    /\ prints <> []
    /\ forallb isPrint prints = true
    /\ invocations prints = [].
Proof.
  apply (failed_wait_leaves_container garbled ["busybox"] someID "abc" None
           (snd (until_retry garbled ["busybox"] []))).
  - reflexivity.
  - right; right; reflexivity.
Defined.

(** When the first [docker wait] comes back with an error and the second
    one answers, without error and without ["Error"], a text that reads
    as the number [n], the program exits with [n], after the second
    [docker wait], [docker logs] and [docker rm], in this order. *)
Theorem retry_recovers_exit_code (w : World) args containerID waitResult t
    waitOutput n :
  until_wait w args [] = (inl (containerID, waitResult), t) ->
  isErr (err waitResult) = true ->
  CombinedOutput w t (dockerWait containerID) = (waitOutput, None) ->
  strings.Contains waitOutput "Error" = false ->
  strconv.Atoi (strings.Trim waitOutput nl) = Some n ->
  exists logPrints rmPrints,
    dockrun w args
    = (Exit n,
       t ++ Run (dockerWait containerID) :: Run (dockerLogs containerID)
         :: logPrints ++ Run (dockerRm containerID) :: rmPrints)
    /\ forallb isPrint logPrints = true
    /\ forallb isPrint rmPrints = true.
Proof.
  intros H F C M A.
  assert (N : exitCodeOf waitOutput None = Some n).
  { unfold exitCodeOf. cbn [isErr orb]. rewrite M. exact A. }
  pose proof (main_retry_spec w containerID waitResult t) as R.
  rewrite F, C in R.
  destruct (after_retry_spec w containerID waitOutput None
              (t ++ [Run (dockerWait containerID)])) as (rest & _ & _ & EA).
  destruct (after_exitCode_spec w containerID n
              (t ++ [Run (dockerWait containerID)]))
    as (lp & rp & EX & PL & PR & _).
  exists lp, rp. split; [|auto].
  apply dockrun_halt. rewrite main_at_wait, (bind_inl _ _ _ _ _ H).
  cbn [fst snd]. unfold after_wait. rewrite (bind_inl _ _ _ _ _ R).
  cbv beta iota. rewrite (EA n N), EX, <- app_assoc. reflexivity.
Qed.

Lemma retry_recovers_exit_code_witness :
  exists logPrints rmPrints,
    dockrun interrupted ["busybox"]
    = (Exit 137%Z,
       snd (until_wait interrupted ["busybox"] [])
         ++ Run (dockerWait someID) :: Run (dockerLogs someID)
         :: logPrints ++ Run (dockerRm someID) :: rmPrints)
    /\ forallb isPrint logPrints = true
    /\ forallb isPrint rmPrints = true.
Proof.
  apply (retry_recovers_exit_code interrupted ["busybox"] someID
           {| output := ""; exitCode := 1%Z; err := Some (ExitError 256%Z) |}
           (snd (until_wait interrupted ["busybox"] []))
           ("137" ++ nl)%string 137%Z); reflexivity.
Defined.

(** ** The handle *)

Lemma TrimLeft_length s cutset :
  String.length (strings.TrimLeft s cutset) <= String.length s.
Proof.
  induction s as [|c s IH]; cbn [strings.TrimLeft String.length]; [lia|].
  destruct (strings.inCutset c cutset); cbn [String.length]; lia.
Qed.

Lemma TrimLeft_idem s cutset :
  strings.TrimLeft (strings.TrimLeft s cutset) cutset
  = strings.TrimLeft s cutset.
Proof.
  induction s as [|c s IH]; cbn [strings.TrimLeft]; [reflexivity|].
  destruct (strings.inCutset c cutset) eqn:C; [exact IH|].
  cbn [strings.TrimLeft]. rewrite C. reflexivity.
Qed.

Lemma TrimRight_idem s cutset :
  strings.TrimRight (strings.TrimRight s cutset) cutset
  = strings.TrimRight s cutset.
Proof.
  induction s as [|c s IH]; cbn [strings.TrimRight]; [reflexivity|].
  destruct (strings.TrimRight s cutset) as [|d r] eqn:R.
  - destruct (strings.inCutset c cutset) eqn:C; [reflexivity|].
    cbn [strings.TrimRight]. rewrite C. reflexivity.
  - cbn [strings.TrimRight]. cbn [strings.TrimRight] in IH. rewrite IH.
    reflexivity.
Qed.

Lemma TrimLeft_TrimRight u cutset :
  strings.TrimLeft u cutset = u ->
  strings.TrimLeft (strings.TrimRight u cutset) cutset
  = strings.TrimRight u cutset.
Proof.
  destruct u as [|c u]; [reflexivity|].
  cbn [strings.TrimLeft]. destruct (strings.inCutset c cutset) eqn:C.
  - intros H. pose proof (TrimLeft_length u cutset) as L.
    rewrite H in L. cbn [String.length] in L. lia.
  - intros _. cbn [strings.TrimRight].
    destruct (strings.TrimRight u cutset) as [|d r].
    + rewrite C. cbn [strings.TrimLeft]. rewrite C. reflexivity.
    + cbn [strings.TrimLeft]. rewrite C. reflexivity.
Qed.

Lemma Trim_idem s cutset :
  strings.Trim (strings.Trim s cutset) cutset = strings.Trim s cutset.
Proof.
  unfold strings.Trim.
  rewrite (TrimLeft_TrimRight _ _ (TrimLeft_idem s cutset)).
  apply TrimRight_idem.
Qed.

(** The handle of every run that gets as far as the wait result has at
    least 4 characters and has no newline left at either end: trimming
    it again gives the handle itself. *)
Theorem handle_is_clean (w : World) args containerID waitResult t :
  until_wait w args [] = (inl (containerID, waitResult), t) ->
  4 <= String.length containerID
  /\ strings.Trim containerID nl = containerID.
Proof.
  intros H. apply until_wait_inv in H.
  destruct H as (out & relay & _ & -> & L & _).
  split; [apply Nat.ltb_ge; exact L | apply Trim_idem].
Qed.

Lemma handle_is_clean_witness :
  4 <= String.length someID /\ strings.Trim someID nl = someID.
Proof.
  exact (handle_is_clean framed ["busybox"] someID
           {| output := "0" ++ nl; exitCode := 0%Z; err := None |}
           (snd (until_wait framed ["busybox"] [])) eq_refl).
Defined.

(** ** The commands of a whole run *)

Lemma main_wait_counts (w : World) containerID t :
  exists waitResult relay,
    main_wait w containerID t
    = ((if completes (selects w) then inl waitResult else inr Blocked),
       t ++ Spawn (dockerWait containerID) :: relay)
    /\ forallb (relayEvent containerID "") relay = true
    /\ List.length (invocations relay)
       = List.length (signalsBefore (selects w)).
Proof.
  unfold main_wait.
  destruct (runCommandSendResult_spec w (dockerWait containerID) t)
    as (waitResult & E & _).
  destruct (relay_counts w containerID waitResult (selects w) ""
              (t ++ [Spawn (dockerWait containerID)])) as (relay & E' & R & N).
  exists waitResult, relay.
  rewrite (bind_inl _ _ _ _ _ E). unfold waitForResult.
  rewrite E', <- app_assoc. auto.
Qed.

Lemma until_wait_relay (w : World) args containerID waitResult t :
  until_wait w args [] = (inl (containerID, waitResult), t) ->
  exists relay,
    t = Run (dockerRun args) :: Spawn (dockerWait containerID) :: relay
    /\ List.length (invocations relay)
       = List.length (signalsBefore (selects w))
    /\ Forall (relayCommand containerID) (invocations relay).
Proof.
  unfold until_wait. intros H.
  apply bind_inv in H. destruct H as ([] & t1 & V & H).
  apply bind_inv in H. destruct H as (id & t2 & L & H).
  apply bind_inv in H. destruct H as (wr & t3 & W & H).
  unfold ret in H. inversion H; subst id wr t3. clear H.
  destruct (validateArgs_spec args []) as (p & _ & VS).
  destruct (Nat.ltb (List.length args) 1 || existsb rejected args).
  { destruct VS as [VS _]. rewrite VS in V. discriminate. }
  destruct VS as [VS _]. rewrite VS in V. inversion V; subst t1. clear V VS.
  destruct (main_run_spec w args []) as (p' & LS & _ & LP).
  rewrite LS in L. clear LS.
  destruct (CombinedOutput w [] (dockerRun args)) as [out e].
  destruct e as [e|]; cbn [isErr orb] in L, LP; [discriminate|].
  destruct (Nat.ltb (String.length (strings.Trim out nl)) 4) eqn:N;
    [discriminate|].
  rewrite (LP eq_refl) in L. inversion L; subst containerID t2. clear L LP.
  destruct (main_wait_counts w (strings.Trim out nl) [Run (dockerRun args)])
    as (wr & relay & WS & R & C).
  rewrite WS in W.
  destruct (completes (selects w)); [|discriminate].
  inversion W; subst. exists relay.
  split; [reflexivity|]. split; [exact C|].
  apply relayCommand_of_relayEvent. exact R.
Qed.

Lemma until_exitCode_inv (w : World) args containerID finalExitCode t :
  until_exitCode w args [] = (inl (containerID, finalExitCode), t) ->
  exists waitOutput waiterr,
    until_retry w args [] = (inl (containerID, (waitOutput, waiterr)), t)
    /\ exitCodeOf waitOutput waiterr = Some finalExitCode.
Proof.
  rewrite until_exitCode_at_retry. intros H.
  apply bind_inv in H. destruct H as ([id [wo we]] & t1 & U & H).
  cbn [fst snd] in H.
  apply bind_inv in H. destruct H as (n & t2 & E & H).
  unfold ret in H. inversion H; subst id n t2. clear H.
  destruct (main_exitCode_spec wo we t1) as (p & ES & _).
  rewrite ES in E.
  destruct (exitCodeOf wo we) as [n|] eqn:X; [|discriminate].
  inversion E; subst. exists wo, we. auto.
Qed.

(** In a run that reads an exit code, the commands of the whole run are,
    in this order: [docker run -d] with the arguments, [docker wait] on
    the handle, one relay command per signal received, [docker wait]
    once more or not at all, [docker logs], [docker rm].  Nothing else
    is run, and the container is created once and removed once. *)
Theorem commands_of_a_complete_run (w : World) args containerID
    finalExitCode t :
  until_exitCode w args [] = (inl (containerID, finalExitCode), t) ->
  exists relayed retried,
    invocations (snd (dockrun w args))
    = dockerRun args :: dockerWait containerID
        :: relayed ++ retried ++ [dockerLogs containerID; dockerRm containerID]
    /\ List.length relayed = List.length (signalsBefore (selects w))
    /\ Forall (relayCommand containerID) relayed
    /\ (retried = [] \/ retried = [dockerWait containerID]).
Proof.
  intros H.
  destruct (after_exitCode_spec w containerID finalExitCode t)
    as (lp & rp & EA & PL & PR & _).
  assert (D : dockrun w args
              = (Exit finalExitCode,
                 t ++ Run (dockerLogs containerID) :: lp
                   ++ Run (dockerRm containerID) :: rp)).
  { apply dockrun_halt.
    rewrite main_at_exitCode, (bind_inl _ _ _ _ _ H). exact EA. }
  apply until_exitCode_inv in H. destruct H as (wo & we & U & _).
  apply until_retry_inv in U. destruct U as (wr & t1 & UW & R).
  apply until_wait_relay in UW. destruct UW as (relay & -> & N & F).
  rewrite main_retry_spec in R.
  exists (invocations relay),
         (if isErr (err wr) then [dockerWait containerID] else []).
  rewrite D. cbn [snd].
  split; [|split; [exact N|split; [exact F|]]].
  - rewrite invocations_app. cbn [invocations].
    rewrite invocations_app. cbn [invocations].
    rewrite (invocations_prints lp PL), (invocations_prints rp PR).
    destruct (isErr (err wr)); inversion R; subst t; cbn [invocations app].
    + rewrite invocations_app. cbn [invocations].
      rewrite <- !app_assoc. reflexivity.
    + reflexivity.
  - destruct (isErr (err wr)); auto.
Qed.

Lemma commands_of_a_complete_run_witness :
  exists relayed retried,
    invocations (snd (dockrun interrupted ["busybox"]))
    = dockerRun ["busybox"] :: dockerWait someID
        :: relayed ++ retried ++ [dockerLogs someID; dockerRm someID]
    /\ List.length relayed = 2
    /\ Forall (relayCommand someID) relayed
    /\ (retried = [] \/ retried = [dockerWait someID]).
Proof.
  exact (commands_of_a_complete_run interrupted ["busybox"] someID 137%Z
           (snd (until_exitCode interrupted ["busybox"] [])) eq_refl).
Defined.

(** ** The error marker and the number *)

Lemma digits_no_E s : forall acc n,
  strconv.digits acc s = Some n -> strings.inCutset "E" s = false.
Proof.
  induction s as [|c s IH]; intros acc n; cbn [strconv.digits strings.inCutset];
    [reflexivity|].
  destruct (Ascii.eqb "E" c) eqn:E.
  - apply Ascii.eqb_eq in E. subst c. discriminate.
  - destruct (strconv.digit c) as [d|]; [|discriminate].
    cbn [orb]. apply IH.
Qed.

Lemma Atoi_no_E s n :
  strconv.Atoi s = Some n -> strings.inCutset "E" s = false.
Proof.
  unfold strconv.Atoi. destruct s as [|c rest]; [discriminate|].
  destruct (Ascii.eqb c "-") eqn:Minus;
    [|destruct (Ascii.eqb c "+") eqn:Plus].
  - apply Ascii.eqb_eq in Minus. subst c.
    destruct rest as [|c' rest']; [discriminate|].
    destruct (strconv.digits 0 (String c' rest')) as [m|] eqn:D;
      [|discriminate].
    intros _. cbn [strings.inCutset].
    change (Ascii.eqb "E" "-") with false. cbn [orb].
    exact (digits_no_E _ _ _ D).
  - apply Ascii.eqb_eq in Plus. subst c.
    destruct rest as [|c' rest']; [discriminate|].
    destruct (strconv.digits 0 (String c' rest')) as [m|] eqn:D;
      [|discriminate].
    intros _. cbn [strings.inCutset].
    change (Ascii.eqb "E" "+") with false. cbn [orb].
    exact (digits_no_E _ _ _ D).
  - destruct (strconv.digits 0 (String c rest)) as [m|] eqn:D;
      [|discriminate].
    intros _. exact (digits_no_E _ _ _ D).
Qed.

Lemma Contains_Error_E s :
  strings.Contains s "Error" = true -> strings.inCutset "E" s = true.
Proof.
  induction s as [|c s IH]; cbn [strings.Contains strings.inCutset];
    [discriminate|].
  intros H. apply orb_true_iff in H. destruct H as [H|H].
  - cbn [String.prefix] in H.
    destruct (ascii_dec "E" c) as [<-|N]; [reflexivity | discriminate].
  - rewrite (IH H). apply orb_true_r.
Qed.

Lemma TrimLeft_keeps c s cutset :
  strings.inCutset c cutset = false ->
  strings.inCutset c s = true ->
  strings.inCutset c (strings.TrimLeft s cutset) = true.
Proof.
  intros N. induction s as [|a s IH];
    cbn [strings.inCutset strings.TrimLeft]; [discriminate|].
  intros H. destruct (strings.inCutset a cutset) eqn:A.
  - apply IH. destruct (Ascii.eqb c a) eqn:E; [|exact H].
    apply Ascii.eqb_eq in E. subst a. congruence.
  - exact H.
Qed.

Lemma TrimRight_keeps c s cutset :
  strings.inCutset c cutset = false ->
  strings.inCutset c s = true ->
  strings.inCutset c (strings.TrimRight s cutset) = true.
Proof.
  intros N. induction s as [|a s IH];
    cbn [strings.inCutset strings.TrimRight]; [discriminate|].
  intros H. destruct (Ascii.eqb c a) eqn:E.
  - apply Ascii.eqb_eq in E. subst a. rewrite N.
    destruct (strings.TrimRight s cutset);
      cbn [strings.inCutset]; rewrite Ascii.eqb_refl; reflexivity.
  - cbn [orb] in H. specialize (IH H).
    destruct (strings.TrimRight s cutset) as [|d r]; [discriminate IH|].
    cbn [strings.inCutset] in *. rewrite E. exact IH.
Qed.

Lemma marked_output_is_no_number waitOutput :
  strings.Contains waitOutput "Error" = true ->
  strconv.Atoi (strings.Trim waitOutput nl) = None.
Proof.
  intros H. apply Contains_Error_E in H.
  destruct (strconv.Atoi (strings.Trim waitOutput nl)) as [n|] eqn:A;
    [|reflexivity].
  apply Atoi_no_E in A. unfold strings.Trim in A.
  rewrite (TrimRight_keeps "E" _ nl eq_refl
             (TrimLeft_keeps "E" _ nl eq_refl H)) in A.
  discriminate.
Qed.

(** The check for ["Error"] in the wait output decides which messages
    are printed, never the exit status: when the wait outcome [main]
    goes on with has no error, the program exits with the number its
    trimmed output reads as, and with 1 when it reads as none, whether
    or not ["Error"] occurs in it (an output with ["Error"] in it reads
    as no number). *)
Theorem exit_status_from_number_alone (w : World) args containerID
    waitOutput t :
  until_retry w args [] = (inl (containerID, (waitOutput, None)), t) ->
  fst (dockrun w args)
  = Exit (match strconv.Atoi (strings.Trim waitOutput nl) with
          | Some finalExitCode => finalExitCode
          | None => 1%Z
          end).
Proof.
  intros H.
  destruct (dockrun_at_retry w args containerID waitOutput None t H)
    as (rest & -> & _).
  cbn [fst]. unfold exitCodeOf. cbn [isErr orb].
  destruct (strings.Contains waitOutput "Error") eqn:C; [|reflexivity].
  rewrite (marked_output_is_no_number waitOutput C). reflexivity.
Qed.

Lemma exit_status_from_number_alone_witness :
  fst (dockrun vanished ["busybox"]) = Exit 3%Z.
Proof.
  exact (exit_status_from_number_alone vanished ["busybox"] someID
           ("3" ++ nl)%string (snd (until_retry vanished ["busybox"] []))
           eq_refl).
Defined.
